(** * A shallow embedding of package [modem] (modem.go)

    The package tracks USB modems: udev hot-plug events for the "tty" and
    "net" leaves of one USB device are merged into one [Modem] record kept
    in [Manager.devices], and the IMEI is read over the serial port with
    the AT command [AT+CGSN].

    What the package gets from its collaborators is modelled as data:
    - a [Device] is the snapshot of the udev accessors [readDevice] calls;
    - a [Session] is what one opened serial port does (open and write
      outcome, the bytes of the two reads);
    - handlers are opaque callbacks: calling one is recorded in the
      [trace] of the [World], together with every [time.Sleep]; a handler
      is taken not to call back into the Manager.

    Goroutines started by [Monitor] are kept in the [World]; a caller's
    method and one pass of a goroutine through [readDevice] or through its
    loop are the atomic steps that [run] interleaves. *)

From Stdlib Require Import ZArith Ascii String List.
From stdpp Require Import base option list strings gmap fin_maps.

Open Scope string_scope.
Open Scope list_scope.
Open Scope Z_scope.

Module modem.

(** ** Go values used by the package *)

(** [error]: the three errors the package creates with [errors.New], and
    whatever the serial transport reports. *)
Inductive error : Type :=
  | errors_New (msg : string)
  | transport (msg : string).

Global Instance error_eq_dec : EqDecision error.
Proof. solve_decision. Defined.

(** A [chan bool] that is only ever made and closed. *)
Inductive chan : Type := chan_nil | chan_open | chan_closed.

Global Instance chan_eq_dec : EqDecision chan.
Proof. solve_decision. Defined.

(** [const IMEILEN = 17] *)
Definition IMEILEN : nat := 17.

(** [type Modem struct] *)
Record Modem : Type := mkModem {
  Net : string;
  Tty : string;
  Imei : string;
  ready : Z
}.

Global Instance Modem_eq_dec : EqDecision Modem.
Proof. solve_decision. Defined.

(** The zero value of [Modem], which a Go map lookup yields for a key
    that is absent. *)
Definition Modem_zero : Modem := mkModem "" "" "" 0.

(** [type filter struct] *)
Record filter : Type := mkfilter {
  vid : string;
  pid : string
}.

(** A [func(Modem)] value: the no-op closure installed by [New], or a
    callback of the caller's. *)
Inductive handler : Type := noop | callback (id : nat).

(** [type Manager struct] *)
Record Manager : Type := mkManager {
  filters : list filter;
  devices : gmap string Modem;
  stopMonitor : chan;
  monitoring : bool;
  handleAdd : handler;
  handleRemove : handler;
  handleUpdate : handler
}.

(** ** The collaborators *)

(** What [readDevice] reads from a [*udev.Device]. [usb_parent] is
    [ParentWithSubsystemDevType("usb", "usb_device")], [None] when that
    is nil; [EPnum] is [Parent().Parent().SysAttrValue("bNumEndpoints")]. *)
Record UsbDevice : Type := mkUsb {
  usb_DevNode : string;
  idVendor : string;
  idProduct : string
}.

Record Device : Type := mkDevice {
  Action : string;
  DevNode : string;
  SysName : string;
  Subsystem : string;
  EPnum : string;
  usb_parent : option UsbDevice
}.

(** One use of a serial port by [getImei]: the outcome of
    [serial.OpenPort] and of [Write], and for each of the two [Read]s the
    bytes the port delivers; the second [Read] may report an error. *)
Record Session : Type := mkSession {
  open_err : option error;
  write_err : option error;
  read1 : list ascii;
  read2 : list ascii;
  read2_err : option error
}.

(** The serial ports of the machine: the session that the [k]-th call of
    [getImei] gets when it opens [port]. *)
Definition Serial : Type := string -> nat -> Session.

(** ** Observable effects *)

Inductive slot : Type := add | update | remove.

Global Instance slot_eq_dec : EqDecision slot.
Proof. solve_decision. Defined.

Inductive effect : Type :=
  | fire (s : slot) (h : handler) (m : Modem)   (* m.handleAdd(d) and the like *)
  | sleep (seconds : Z).                        (* time.Sleep *)

(** Where a goroutine running [monitor] stands. *)
Inductive pc : Type :=
  | at_start                          (* spawned by [go m.monitor()] *)
  | enumerating (rest : list Device)  (* in the loop over [e.First()] *)
  | looping                           (* in the [for { select ... }] *)
  | returned.

Record World : Type := mkWorld {
  mgr : Manager;
  trace : list effect;        (* oldest effect first *)
  opened : nat;               (* calls of getImei so far *)
  workers : list pc           (* the goroutines started by Monitor *)
}.

(** ** strings.Trim and the byte buffer *)

Definition in_cutset (cutset : string) (c : ascii) : bool :=
  existsb (Ascii.eqb c) (list_ascii_of_string cutset).

Fixpoint TrimLeft (cutset : string) (s : list ascii) : list ascii :=
  match s with
  | [] => []
  | c :: r => if in_cutset cutset c then TrimLeft cutset r else s
  end.

Definition TrimRight (cutset : string) (s : list ascii) : list ascii :=
  reverse (TrimLeft cutset (reverse s)).

(** [strings.Trim(s, cutset)] for an ASCII cutset, where Go trims byte by
    byte. *)
Definition Trim (s : string) (cutset : string) : string :=
  string_of_list_ascii
    (TrimLeft cutset (TrimRight cutset (list_ascii_of_string s))).

(** [make([]byte, n)] *)
Definition make_bytes (n : nat) : list ascii := repeat zero n.

(** [n, err := s.Read(buf)]: at most [len(buf)] of the delivered bytes are
    copied to the front of [buf]; the rest of [buf] stays. *)
Definition Read (data : list ascii) (err : option error) (buf : list ascii)
  : Z * option error * list ascii :=
  let got := take (length buf) data in
  (Z.of_nat (length got), err, got ++ drop (length got) buf).

Definition CR : ascii := ascii_of_nat 13.
Definition LF : ascii := ascii_of_nat 10.
Definition CRLF : string := String CR (String LF "").

(** The cutset ["\r\n "] *)
Definition cutset_imei : string := String CR (String LF " ").

(** ** getImei *)

Definition getImei (s : Session) : string * option error :=
  match open_err s with
  | Some err => ("", Some err)
  | None =>
    match write_err s with
    | Some err => ("", Some err)
    | None =>
      let buf := make_bytes 128 in
      let '(_, _, buf) := Read (read1 s) None buf in
      let '(n, err, buf) := Read (read2 s) (read2_err s) buf in
      match err with
      | Some err => ("", Some err)
      | None =>
        if decide (n ≠ 25) then ("", Some (errors_New "Invalid Imei"))
        else (Trim (string_of_list_ascii (take IMEILEN buf)) cutset_imei, None)
      end
    end
  end.


(** ** Field updates *)

Definition set_filters (fs : list filter) (m : Manager) : Manager :=
  mkManager fs (devices m) (stopMonitor m) (monitoring m)
            (handleAdd m) (handleRemove m) (handleUpdate m).
Definition set_devices (ds : gmap string Modem) (m : Manager) : Manager :=
  mkManager (filters m) ds (stopMonitor m) (monitoring m)
            (handleAdd m) (handleRemove m) (handleUpdate m).
Definition set_stopMonitor (c : chan) (m : Manager) : Manager :=
  mkManager (filters m) (devices m) c (monitoring m)
            (handleAdd m) (handleRemove m) (handleUpdate m).
Definition set_monitoring (b : bool) (m : Manager) : Manager :=
  mkManager (filters m) (devices m) (stopMonitor m) b
            (handleAdd m) (handleRemove m) (handleUpdate m).
Definition set_handleAdd (h : handler) (m : Manager) : Manager :=
  mkManager (filters m) (devices m) (stopMonitor m) (monitoring m)
            h (handleRemove m) (handleUpdate m).
Definition set_handleRemove (h : handler) (m : Manager) : Manager :=
  mkManager (filters m) (devices m) (stopMonitor m) (monitoring m)
            (handleAdd m) h (handleUpdate m).
Definition set_handleUpdate (h : handler) (m : Manager) : Manager :=
  mkManager (filters m) (devices m) (stopMonitor m) (monitoring m)
            (handleAdd m) (handleRemove m) h.

Definition on_mgr (f : Manager -> Manager) (w : World) : World :=
  mkWorld (f (mgr w)) (trace w) (opened w) (workers w).
Definition emit (e : effect) (w : World) : World :=
  mkWorld (mgr w) (trace w ++ [e]) (opened w) (workers w).
Definition tick (w : World) : World :=
  mkWorld (mgr w) (trace w) (S (opened w)) (workers w).
Definition spawn (w : World) : World :=
  mkWorld (mgr w) (trace w) (opened w) (workers w ++ [at_start]).
Definition set_worker (i : nat) (p : pc) (w : World) : World :=
  mkWorld (mgr w) (trace w) (opened w) (<[i := p]> (workers w)).

(** ** The Manager's methods *)

(** [func New() *Manager]: [filters] and [stopMonitor] are nil,
    [monitoring] is false. *)
Definition New : Manager :=
  mkManager [] ∅ chan_nil false noop noop noop.

(** [AddHandler]: a nil argument ([None]) leaves the handler in place. *)
Definition AddHandler (a u r : option handler) (m : Manager) : Manager :=
  let m := match a with Some h => set_handleAdd h m | None => m end in
  let m := match u with Some h => set_handleUpdate h m | None => m end in
  match r with Some h => set_handleRemove h m | None => m end.

Definition AddFilter (v p : string) (m : Manager) : Manager :=
  let f := mkfilter v p in
  set_filters (filters m ++ [f]) m.

Definition List (m : Manager) : gmap string Modem :=
  base.filter (fun kv : string * Modem => ready kv.2 = 1) (devices m).

(** [Monitor]: the flag is tested, a channel is made, the goroutine is
    started. Nothing here writes [monitoring]. *)
Definition Monitor (w : World) : option error * World :=
  if monitoring (mgr w) then (Some (errors_New "Monitor is already started"), w)
  else (None, spawn (on_mgr (set_stopMonitor chan_open) w)).

(** [StopMonitor]. [close] of a nil or of a closed channel panics:
    the result is [None] then. *)
Definition StopMonitor (w : World) : option (option error * World) :=
  if negb (monitoring (mgr w)) then
    Some (Some (errors_New "Monitor already stopped."), w)
  else
    match stopMonitor (mgr w) with
    | chan_open =>
        Some (None, on_mgr (set_monitoring false)
                      (on_mgr (set_stopMonitor chan_closed) w))
    | chan_nil | chan_closed => None
    end.

(** ** readDevice *)

(** [m.devices[key] = d] *)
Definition store (key : string) (d : Modem) (w : World) : World :=
  on_mgr (fun m => set_devices (<[key := d]> (devices m)) m) w.

(** The body of [for _, f := range m.filters] when [f] matches; [key] is
    the device node of the USB parent. *)
Definition on_match (env : Serial) (dev : Device) (key : string) (w : World)
  : World :=
  let action := Action dev in
  let d := default Modem_zero (devices (mgr w) !! key) in
  let d := if decide (Subsystem dev = "net")
           then mkModem (SysName dev) (Tty d) (Imei d) (ready d) else d in
  let '(d, w) :=
    if decide (Subsystem dev = "tty" ∧ EPnum dev = "03") then
      let w := if decide (action = "add") then emit (sleep 5) w else w in
      let '(imei, err) := getImei (env (DevNode dev) (opened w)) in
      let w := tick w in
      let d := match err with
               | None => mkModem (Net d) (DevNode dev) imei 1
               | Some _ => d
               end in
      if decide (action ≠ "update")
      then (d, emit (fire add (handleAdd (mgr w)) d) w)
      else (d, emit (fire update (handleUpdate (mgr w)) d) w)
    else (d, w) in
  store key d w.

Definition readDevice (env : Serial) (dev : Device) (w : World) : World :=
  let action := Action dev in
  if decide (action = "remove") then
    match devices (mgr w) !! DevNode dev with
    | None => w
    | Some modem =>
        let w := emit (fire remove (handleRemove (mgr w)) modem) w in
        on_mgr (fun m => set_devices (delete (DevNode dev) (devices m)) m) w
    end
  else if decide (Subsystem dev ≠ "tty" ∧ Subsystem dev ≠ "net") then w
  else
    match usb_parent dev with
    | None => w
    | Some usb =>
        foldl (fun w f =>
                 if decide (idVendor usb = vid f ∧ idProduct usb = pid f)
                 then on_match env dev (usb_DevNode usb) w else w)
              w (filters (mgr w))
    end.

(** ** monitor *)

(** [for k := range m.devices { delete(m.devices, k) }] *)
Definition clear (ds : gmap string Modem) : gmap string Modem :=
  foldr delete ds (map_to_list ds).*1.

(** What udev tells one run of [monitor]: the outcome of
    [EnableReceiving] and the devices of the scan. *)
Record Udev : Type := mkUdev {
  enable_err : option error;
  scan : list Device
}.

(** One step of a goroutine running [monitor]; [recv] is what
    [mon.ReceiveDevice()] yields should this step poll it ([None] when
    the device is nil). The [break] of the first case leaves the [select],
    not the [for]. *)
Definition monitor_step (u : Udev) (env : Serial) (recv : option Device)
    (p : pc) (w : World) : pc * World :=
  match p with
  | at_start =>
      match enable_err u with
      | Some _ => (returned, w)
      | None => (enumerating (scan u), w)
      end
  | enumerating [] => (looping, w)
  | enumerating (device :: rest) => (enumerating rest, readDevice env device w)
  | looping =>
      match stopMonitor (mgr w) with
      | chan_closed =>
          (looping, on_mgr (fun m => set_devices (clear (devices m)) m) w)
      | chan_nil | chan_open =>
          match recv with
          | Some d => (looping, readDevice env d w)
          | None => (looping, emit (sleep 1) w)
          end
      end
  | returned => (returned, w)
  end.

(** ** Callers and goroutines, interleaved *)

Inductive op : Type :=
  | call_AddHandler (a u r : option handler)
  | call_AddFilter (v p : string)
  | call_List
  | call_Monitor
  | call_StopMonitor
  | step (i : nat) (recv : option Device).   (* goroutine [i] takes a step *)

(** [None]: the program panicked. *)
Definition exec (u : Udev) (env : Serial) (o : op) (w : World) : option World :=
  match o with
  | call_AddHandler a up r => Some (on_mgr (AddHandler a up r) w)
  | call_AddFilter v p => Some (on_mgr (AddFilter v p) w)
  | call_List => Some w
  | call_Monitor => Some (snd (Monitor w))
  | call_StopMonitor => snd <$> StopMonitor w
  | step i recv =>
      match workers w !! i with
      | Some p =>
          let '(p', w') := monitor_step u env recv p w in
          Some (set_worker i p' w')
      | None => Some w
      end
  end.

Fixpoint run (u : Udev) (env : Serial) (os : list op) (w : World)
  : option World :=
  match os with
  | [] => Some w
  | o :: os =>
      match exec u env o w with
      | Some w' => run u env os w'
      | None => None
      end
  end.

(** A program that has just called [New]. *)
Definition boot : World := mkWorld New [] 0 [].

End modem.

Import modem.

(** * The vocabulary of the properties *)

(** Every byte of [l] is in the cutset. *)
Definition all_cut (cutset : string) (l : list ascii) : Prop :=
  Forall (fun c => in_cutset cutset c = true) l.

(** The byte [o], if there is one, is not in the cutset. *)
Definition kept (cutset : string) (o : option ascii) : Prop :=
  ∀ c, o = Some c -> in_cutset cutset c = false.

(** The [n] of [n, err = s.Read(buf)], the second read into the 128-byte
    buffer. *)
Definition second_read_n (s : Session) : Z :=
  Z.of_nat (length (take 128 (read2 s))).

(** How many entries of the filter list the USB parent matches; [AddFilter]
    does not remove duplicates. *)
Fixpoint matches (usb : UsbDevice) (fs : list filter) : nat :=
  match fs with
  | [] => 0%nat
  | f :: fs =>
      ((if decide (idVendor usb = vid f ∧ idProduct usb = pid f)
        then 1 else 0) + matches usb fs)%nat
  end.

(** The record at [key] as a Go map lookup returns it. *)
Definition record_at (key : string) (w : World) : Modem :=
  default Modem_zero (devices (mgr w) !! key).

(** The handler calls of a trace, in order. *)
Fixpoint fires (t : list effect) : list (slot * Modem) :=
  match t with
  | [] => []
  | fire s _ m :: t => (s, m) :: fires t
  | sleep _ :: t => fires t
  end.

(** A record that claims to be ready has a serial port and an IMEI. *)
Definition known (d : Modem) : Prop :=
  ready d = 1 -> Tty d ≠ "" ∧ Imei d ≠ "".

Definition ready_means_known (ds : gmap string Modem) : Prop :=
  ∀ k d, ds !! k = Some d -> known d.

(** Serial ports on which no retrieval succeeds with an empty port name or
    with an identifier that is empty once trimmed. *)
Definition sound_ports (env : Serial) : Prop :=
  ∀ port k imei, getImei (env port k) = (imei, None) -> port ≠ "" ∧ imei ≠ "".

(** The part of the state that only the caller's methods write. *)
Definition control (w : World)
  : list filter * chan * bool * list pc * (handler * handler * handler) :=
  (filters (mgr w), stopMonitor (mgr w), monitoring (mgr w), workers w,
   (handleAdd (mgr w), handleRemove (mgr w), handleUpdate (mgr w))).

(** A goroutine polled several times: [recvs] lists what
    [mon.ReceiveDevice()] would yield at each step. *)
Fixpoint monitor_run (u : Udev) (env : Serial) (recvs : list (option Device))
    (p : pc) (w : World) : pc * World :=
  match recvs with
  | [] => (p, w)
  | recv :: recvs =>
      let '(p', w') := monitor_step u env recv p w in
      monitor_run u env recvs p' w'
  end.

(** The registry key an event can write: its own device node for a
    removal, the device node of its USB parent otherwise. *)
Definition touched (dev : Device) : option string :=
  if decide (Action dev = "remove") then Some (DevNode dev)
  else usb_DevNode <$> usb_parent dev.


(** One iteration of the loop of [monitor] while the channel is not
    closed. *)
Definition poll (env : Serial) (w : World) (recv : option Device) : World :=
  match recv with
  | Some d => readDevice env d w
  | None => emit (sleep 1) w
  end.


(** The handler in place after [AddHandler] was given [new]. *)
Definition registered (new : option handler) (old : handler) : handler :=
  match new with Some h => h | None => old end.

(** The later registration wins, nil registers nothing. *)
Definition later (new old : option handler) : option handler :=
  match new with Some _ => new | None => old end.


(** The handler slot that the tty / endpoint "03" branch calls. *)
Definition slot_of (action : string) : slot :=
  if decide (action ≠ "update") then add else update.


(** The events that a goroutine enumerates or receives, in order. *)
Definition process (env : Serial) (ds : list Device) (w : World) : World :=
  foldl (fun w d => readDevice env d w) w ds.

(** The record [d] with the interface name [name]. *)
Definition with_net (name : string) (d : Modem) : Modem :=
  mkModem name (Tty d) (Imei d) (ready d).

(** * Concrete inputs *)

(** The reply of a modem to [AT+CGSN]: 25 bytes. *)
Definition frame25 : list ascii :=
  list_ascii_of_string
    (CRLF +:+ "123456789012345" +:+ CRLF +:+ CRLF +:+ "OK" +:+ CRLF).

Definition echo : list ascii := list_ascii_of_string ("AT+CGSN" +:+ CRLF).

Definition session_ok : Session := mkSession None None echo frame25 None.

(** One byte more than the frame. *)
Definition session_26 : Session :=
  mkSession None None echo (frame25 ++ [LF]) None.

(** Ten bytes only. *)
Definition session_10 : Session :=
  mkSession None None echo (take 10 frame25) None.

(** 25 bytes, all of them blank. *)
Definition session_blank : Session :=
  mkSession None None echo (repeat " "%char 25) None.

(** The port cannot be opened. *)
Definition session_closed : Session :=
  mkSession (Some (transport "no such file or directory")) None [] [] None.

Definition usb0 : UsbDevice := mkUsb "/dev/bus/usb/001/004" "12d1" "1506".

(** The command interface of the modem, and its network interface. *)
Definition tty0 (action : string) : Device :=
  mkDevice action "/dev/ttyUSB0" "ttyUSB0" "tty" "03" (Some usb0).
Definition net0 (action : string) : Device :=
  mkDevice action "" "wwan0" "net" "" (Some usb0).

(** The USB device itself, as the monitor's ("usb", "usb_device") filter
    delivers it. *)
Definition usb0_event (action : string) : Device :=
  mkDevice action "/dev/bus/usb/001/004" "1-1" "usb" "" None.

Definition ports_ok : Serial := fun _ _ => session_ok.
Definition ports_short : Serial := fun _ _ => session_10.
Definition ports_blank : Serial := fun _ _ => session_blank.

Definition on_add : handler := callback 1.
Definition on_update : handler := callback 2.
Definition on_remove : handler := callback 3.

(** [New()], [AddHandler] with three callbacks, then
    [AddFilter("12d1", "1506")], once and twice. *)
Definition one_filter : World :=
  on_mgr (AddFilter "12d1" "1506")
    (on_mgr (AddHandler (Some on_add) (Some on_update) (Some on_remove)) boot).
Definition same_filter_twice : World :=
  on_mgr (AddFilter "12d1" "1506") one_filter.

Definition modem0 : Modem :=
  mkModem "" "/dev/ttyUSB0" "123456789012345" 1.

(** The registry once the "add" event of the command interface has been
    processed. *)
Definition after_tty : World := readDevice ports_ok (tty0 "add") one_filter.

(** Ports that cannot be opened under the empty name and answer the
    25-byte frame otherwise. *)
Definition ports_named : Serial :=
  fun port _ => if decide (port = "") then session_closed else session_ok.

(** One run of a program: filter, start, then the goroutine enumerates the
    command interface, receives the network interface and idles, while the
    caller lists the modems and tries to stop. *)
Definition udev0 : Udev := mkUdev None [tty0 ""].
Definition history0 : list op :=
  [call_AddFilter "12d1" "1506"; call_Monitor;
   step 0 None; step 0 None; step 0 None;
   step 0 (Some (net0 "add")); call_List; step 0 None;
   call_StopMonitor; step 0 None].

(** Another serial interface of the same modem: two endpoints only. *)
Definition tty1 (action : string) : Device :=
  mkDevice action "/dev/ttyUSB1" "ttyUSB1" "tty" "02" (Some usb0).

(** A Manager as [Monitor] is meant to leave it: flag set, channel open. *)
Definition flagged : World := on_mgr (set_monitoring true) (Monitor boot).2.

(** * Properties *)

(** ** The identifier retriever *)

(** [strings.Trim] removes a run of cutset bytes at each end, and what is
    left neither starts nor ends with a cutset byte. *)
Lemma TrimLeft_spec cutset s :
  ∃ pre, s = pre ++ TrimLeft cutset s
       ∧ all_cut cutset pre
       ∧ kept cutset (head (TrimLeft cutset s)).
Proof.
  induction s as [|c r (pre & Hs & Hpre & Hhd)]; cbn [TrimLeft].
  - exists []. repeat split; [constructor|]. intros c; discriminate.
  - destruct (in_cutset cutset c) eqn:E.
    + exists (c :: pre). repeat split.
      * cbn. now rewrite <- Hs.
      * now constructor.
      * exact Hhd.
    + exists []. repeat split; [constructor|].
      intros c' [= <-]. exact E.
Qed.

Lemma TrimLeft_last cutset s :
  kept cutset (last s) -> kept cutset (last (TrimLeft cutset s)).
Proof.
  induction s as [|c r IH]; cbn [TrimLeft]; [auto|].
  intros Hl. destruct (in_cutset cutset c) eqn:E; [|exact Hl].
  apply IH. destruct r as [|c' r]; [intros x; discriminate|exact Hl].
Qed.

Lemma TrimRight_spec cutset s :
  ∃ suf, s = TrimRight cutset s ++ suf
       ∧ all_cut cutset suf
       ∧ kept cutset (last (TrimRight cutset s)).
Proof.
  unfold TrimRight.
  destruct (TrimLeft_spec cutset (reverse s)) as (pre & Hs & Hpre & Hhd).
  exists (reverse pre). repeat split.
  - rewrite <- reverse_app, <- Hs. now rewrite reverse_involutive.
  - now apply Forall_reverse.
  - now rewrite last_reverse.
Qed.

Lemma Trim_spec (s cutset : string) :
  ∃ pre suf,
    list_ascii_of_string s = pre ++ list_ascii_of_string (Trim s cutset) ++ suf
    ∧ all_cut cutset pre ∧ all_cut cutset suf
    ∧ kept cutset (head (list_ascii_of_string (Trim s cutset)))
    ∧ kept cutset (last (list_ascii_of_string (Trim s cutset))).
Proof.
  unfold Trim. rewrite list_ascii_of_string_of_list_ascii.
  destruct (TrimRight_spec cutset (list_ascii_of_string s)) as (suf & Hs & Hsuf & Hl).
  destruct (TrimLeft_spec cutset (TrimRight cutset (list_ascii_of_string s)))
    as (pre & Ht & Hpre & Hh).
  exists pre, suf. repeat split; try assumption.
  - rewrite app_assoc, <- Ht. exact Hs.
  - now apply TrimLeft_last.
Qed.

Lemma Read_length data err buf :
  length (Read data err buf).2 = length buf.
Proof.
  unfold Read; cbn [snd].
  rewrite length_app, length_drop, length_take. lia.
Qed.

Lemma take_Read data err buf (k : nat) :
  (k <= length (take (length buf) data))%nat ->
  take k (Read data err buf).2 = take k data.
Proof.
  intros Hk. unfold Read; cbn [snd].
  rewrite take_app_le by exact Hk.
  rewrite take_take. f_equal. rewrite length_take in Hk. lia.
Qed.

(** [getImei] once the port is open and the command written. *)
Lemma getImei_after_write (s : Session) :
  open_err s = None -> write_err s = None ->
  getImei s =
    match read2_err s with
    | Some err => ("", Some err)
    | None =>
        if decide (second_read_n s ≠ 25)
        then ("", Some (errors_New "Invalid Imei"))
        else (Trim (string_of_list_ascii (take IMEILEN (read2 s))) cutset_imei, None)
    end.
Proof.
  intros Ho Hw. unfold getImei. rewrite Ho, Hw.
  pose proof (Read_length (read1 s) None (make_bytes 128)) as Hlen.
  destruct (Read (read1 s) None (make_bytes 128)) as [[n1 e1] buf1] eqn:E1.
  cbn [snd] in Hlen.
  assert (Hb : length buf1 = 128%nat)
    by (rewrite Hlen; unfold make_bytes; apply repeat_length).
  pose proof (take_Read (read2 s) (read2_err s) buf1 IMEILEN) as Htake.
  unfold Read in *. cbn [snd] in Htake. rewrite Hb in *.
  destruct (read2_err s) as [err|]; [reflexivity|].
  fold (second_read_n s).
  destruct (decide (second_read_n s ≠ 25)) as [Hn|Hn]; [reflexivity|].
  rewrite Htake; [reflexivity|].
  unfold second_read_n, IMEILEN in *. lia.
Qed.

Example getImei_ok : getImei session_ok = ("123456789012345", None).
Proof. reflexivity. Qed.

Example getImei_10 : getImei session_10 = ("", Some (errors_New "Invalid Imei")).
Proof. reflexivity. Qed.

Example getImei_blank : getImei session_blank = ("", None).
Proof. reflexivity. Qed.

(** The cutset of [getImei] holds CR, LF and the space. *)
Lemma in_cutset_imei (c : ascii) :
  in_cutset cutset_imei c = true <-> c = CR ∨ c = LF ∨ c = " "%char.
Proof.
  unfold in_cutset, cutset_imei. cbn [list_ascii_of_string existsb].
  rewrite !orb_true_iff, !Ascii.eqb_eq. intuition discriminate.
Qed.

(** C5, as the code has it: when the second read reports no error,
    [getImei] fails with "Invalid Imei" exactly when the number of bytes
    read is not 25 (more than 25 fails as fewer does); a read of exactly 25
    bytes succeeds and yields the first [IMEILEN] = 17 bytes with the
    surrounding CR, LF and space characters trimmed: the 17 bytes are a
    run of such characters, the identifier, and another such run, and the
    identifier neither starts nor ends with one. *)
Theorem getImei_wants_25_bytes (s : Session) :
  open_err s = None -> write_err s = None -> read2_err s = None ->
  (snd (getImei s) = Some (errors_New "Invalid Imei") <-> second_read_n s ≠ 25)
  ∧ (second_read_n s = 25 ->
     getImei s =
       (Trim (string_of_list_ascii (take 17 (read2 s))) cutset_imei, None)
     ∧ ∃ pre suf,
         take 17 (read2 s)
         = pre ++ list_ascii_of_string (fst (getImei s)) ++ suf
         ∧ all_cut cutset_imei pre ∧ all_cut cutset_imei suf
         ∧ kept cutset_imei (head (list_ascii_of_string (fst (getImei s))))
         ∧ kept cutset_imei (last (list_ascii_of_string (fst (getImei s))))).
Proof.
  intros Ho Hw Hr. rewrite (getImei_after_write s Ho Hw), Hr.
  destruct (decide (second_read_n s ≠ 25)) as [Hn|Hn]; cbn [fst snd]; split.
  - tauto.
  - intros H25. contradiction.
  - split; [discriminate | contradiction].
  - intros _. split; [reflexivity|].
    destruct (Trim_spec (string_of_list_ascii (take IMEILEN (read2 s)))
                cutset_imei) as (pre & suf & H).
    rewrite list_ascii_of_string_of_list_ascii in H.
    exists pre, suf. exact H.
Qed.

Lemma getImei_wants_25_bytes_witness :
  second_read_n session_ok = 25
  ∧ getImei session_ok = ("123456789012345", None).
Proof.
  split; [reflexivity|].
  exact (proj1 (proj2 (getImei_wants_25_bytes session_ok
                         eq_refl eq_refl eq_refl) eq_refl)).
Defined.

(** C5 as stated promises success for every read of 25 bytes or more: a
    read of 26 bytes, without any error of the port, is refused. *)
Lemma getImei_26_bytes_refused :
  open_err session_26 = None ∧ write_err session_26 = None
  ∧ read2_err session_26 = None
  ∧ 25 <= second_read_n session_26
  ∧ getImei session_26 = ("", Some (errors_New "Invalid Imei")).
Proof. repeat split; vm_compute; congruence. Qed.

(** ** The correlator *)

Lemma fires_app t1 t2 : fires (t1 ++ t2) = fires t1 ++ fires t2.
Proof.
  induction t1 as [|[s h m|n] t1 IH]; cbn; [reflexivity| |exact IH].
  now rewrite IH.
Qed.

Section Correlator.

Variable env : Serial.

(** The loop over the filters runs its body once for each matching
    entry. *)
Lemma range_filters (usb : UsbDevice) (g : World -> World) fs w :
  foldl (fun w f =>
           if decide (idVendor usb = vid f ∧ idProduct usb = pid f)
           then g w else w) w fs
  = Nat.iter (matches usb fs) g w.
Proof.
  revert w. induction fs as [|f fs IH]; intros w; cbn [foldl matches].
  - reflexivity.
  - rewrite IH. destruct (decide _); cbn [Nat.add].
    + now rewrite Nat.iter_succ_r.
    + reflexivity.
Qed.

Lemma readDevice_remove dev w :
  Action dev = "remove" ->
  readDevice env dev w =
    match devices (mgr w) !! DevNode dev with
    | None => w
    | Some modem =>
        on_mgr (fun m => set_devices (delete (DevNode dev) (devices m)) m)
               (emit (fire remove (handleRemove (mgr w)) modem) w)
    end.
Proof.
  intros Ha. unfold readDevice.
  destruct (decide (Action dev = "remove")); [reflexivity|contradiction].
Qed.

Lemma readDevice_leaf dev usb w :
  Action dev ≠ "remove" ->
  Subsystem dev = "tty" ∨ Subsystem dev = "net" ->
  usb_parent dev = Some usb ->
  readDevice env dev w =
    Nat.iter (matches usb (filters (mgr w)))
             (on_match env dev (usb_DevNode usb)) w.
Proof.
  intros Ha Hs Hp. unfold readDevice.
  destruct (decide (Action dev = "remove")); [contradiction|].
  destruct (decide (Subsystem dev ≠ "tty" ∧ Subsystem dev ≠ "net")); [tauto|].
  rewrite Hp. apply range_filters.
Qed.

Lemma on_match_net dev key w :
  Subsystem dev = "net" ->
  on_match env dev key w =
    store key (mkModem (SysName dev) (Tty (record_at key w))
                       (Imei (record_at key w)) (ready (record_at key w))) w.
Proof.
  intros Hs. unfold on_match, record_at.
  destruct (decide (Subsystem dev = "net")); [|contradiction].
  destruct (decide (Subsystem dev = "tty" ∧ EPnum dev = "03")) as [[Ht _]|_];
    [|reflexivity].
  rewrite Hs in Ht. discriminate.
Qed.

Lemma on_match_tty_ok dev key w imei :
  Subsystem dev = "tty" -> EPnum dev = "03" ->
  getImei (env (DevNode dev) (opened w)) = (imei, None) ->
  let d := mkModem (Net (record_at key w)) (DevNode dev) imei 1 in
  let w1 := if decide (Action dev = "add") then emit (sleep 5) w else w in
  on_match env dev key w =
    store key d
      (emit (if decide (Action dev ≠ "update")
             then fire add (handleAdd (mgr w)) d
             else fire update (handleUpdate (mgr w)) d) (tick w1)).
Proof.
  intros Hs He Hi. unfold on_match, record_at.
  destruct (decide (Subsystem dev = "net")) as [Hn|_];
    [rewrite Hs in Hn; discriminate|].
  destruct (decide (Subsystem dev = "tty" ∧ EPnum dev = "03")); [|tauto].
  destruct (decide (Action dev = "add")); cbn [emit opened]; rewrite Hi;
    destruct (decide (Action dev ≠ "update")); reflexivity.
Qed.

Lemma on_match_tty_failed dev key w imei err :
  Subsystem dev = "tty" -> EPnum dev = "03" ->
  getImei (env (DevNode dev) (opened w)) = (imei, Some err) ->
  let d := record_at key w in
  let w1 := if decide (Action dev = "add") then emit (sleep 5) w else w in
  on_match env dev key w =
    store key d
      (emit (if decide (Action dev ≠ "update")
             then fire add (handleAdd (mgr w)) d
             else fire update (handleUpdate (mgr w)) d) (tick w1)).
Proof.
  intros Hs He Hi. unfold on_match, record_at.
  destruct (decide (Subsystem dev = "net")) as [Hn|_];
    [rewrite Hs in Hn; discriminate|].
  destruct (decide (Subsystem dev = "tty" ∧ EPnum dev = "03")); [|tauto].
  destruct (decide (Action dev = "add")); cbn [emit opened]; rewrite Hi;
    destruct (decide (Action dev ≠ "update")); reflexivity.
Qed.

End Correlator.

Section Events.

Variable env : Serial.

(** C6, as the code has it: an "add" event of a "tty" leaf with endpoint
    count "03" whose USB parent matches exactly one entry of the filter
    list, whose device node is not the empty string and whose identifier
    retrieval succeeds with a non-empty identifier, leaves at the parent's
    path a record with [ready = 1], the leaf's device node as [Tty] and the
    identifier as [Imei]; the effects of the event are the 5 second sleep
    and one call of the add handler with that record. *)
Theorem add_tty03_makes_ready (dev : Device) (usb : UsbDevice) (w : World)
    (imei : string) :
  Action dev = "add" -> Subsystem dev = "tty" -> EPnum dev = "03" ->
  usb_parent dev = Some usb ->
  matches usb (filters (mgr w)) = 1%nat ->
  DevNode dev ≠ "" ->
  getImei (env (DevNode dev) (opened w)) = (imei, None) -> imei ≠ "" ->
  let key := usb_DevNode usb in
  let d := mkModem (Net (record_at key w)) (DevNode dev) imei 1 in
  let w' := readDevice env dev w in
  devices (mgr w') !! key = Some d
  ∧ ready d = 1 ∧ Tty d ≠ "" ∧ Imei d ≠ ""
  ∧ trace w' = trace w ++ [sleep 5; fire add (handleAdd (mgr w)) d]
  ∧ fires (trace w') = fires (trace w) ++ [(add, d)].
Proof.
  intros Ha Hs He Hp Hm Hnode Hi Hne key d w'.
  assert (Hw' : w' = on_match env dev key w).
  { subst w'. rewrite (readDevice_leaf env dev usb) by
      (try rewrite Ha; auto; discriminate).
    rewrite Hm. reflexivity. }
  rewrite (on_match_tty_ok env dev key w imei Hs He Hi) in Hw'.
  destruct (decide (Action dev = "add")); [|contradiction].
  destruct (decide (Action dev ≠ "update")) as [_|Hu];
    [|rewrite Ha in Hu; exfalso; apply Hu; discriminate].
  assert (Ht : trace w' = trace w ++ [sleep 5; fire add (handleAdd (mgr w)) d]).
  { rewrite Hw'. cbn. now rewrite <- app_assoc. }
  repeat split.
  - rewrite Hw'. cbn. apply lookup_insert_eq.
  - exact Hnode.
  - exact Hne.
  - exact Ht.
  - rewrite Ht, fires_app. reflexivity.
Qed.

(** C7, as the code has it: when the identifier retrieval of an event on
    the tty / endpoint "03" branch fails and the USB parent matches exactly
    one entry of the filter list, the record at the parent's path is left
    as it was (the zero record when there was none: not ready, no
    identifier), and for every action other than "update" the add handler
    is called exactly once, with that record; for "add" the effects are
    the 5 second sleep and that call. [readDevice] has no result: nothing
    reports the error. *)
Theorem failed_retrieval_still_reported (dev : Device) (usb : UsbDevice)
    (w : World) (imei : string) (err : error) :
  Action dev ≠ "remove" -> Subsystem dev = "tty" -> EPnum dev = "03" ->
  usb_parent dev = Some usb ->
  matches usb (filters (mgr w)) = 1%nat ->
  getImei (env (DevNode dev) (opened w)) = (imei, Some err) ->
  let key := usb_DevNode usb in
  let d := record_at key w in
  let w' := readDevice env dev w in
  devices (mgr w') = <[key := d]> (devices (mgr w))
  ∧ (devices (mgr w) !! key = None -> ready d = 0 ∧ Imei d = "")
  ∧ (Action dev ≠ "update" ->
     fires (trace w') = fires (trace w) ++ [(add, d)])
  ∧ (Action dev = "add" ->
     trace w' = trace w ++ [sleep 5; fire add (handleAdd (mgr w)) d]).
Proof.
  intros Ha Hs He Hp Hm Hi key d w'.
  assert (Hw' : w' = on_match env dev key w).
  { subst w'. rewrite (readDevice_leaf env dev usb) by auto.
    rewrite Hm. reflexivity. }
  rewrite (on_match_tty_failed env dev key w imei err Hs He Hi) in Hw'.
  fold d in Hw'.
  assert (Hnew : devices (mgr w) !! key = None -> d = Modem_zero).
  { intros Hnone. subst d. unfold record_at. now rewrite Hnone. }
  repeat split.
  - rewrite Hw'. now destruct (decide (Action dev = "add")).
  - now rewrite Hnew.
  - now rewrite Hnew.
  - intros Hu. rewrite Hw'.
    destruct (decide (Action dev ≠ "update")); [|contradiction].
    destruct (decide (Action dev = "add")); cbn;
      rewrite !fires_app; cbn; now rewrite ?app_nil_r.
  - intros Hadd. rewrite Hw'.
    destruct (decide (Action dev = "add")); [|contradiction].
    destruct (decide (Action dev ≠ "update")) as [_|Hu];
      [|rewrite Hadd in Hu; exfalso; apply Hu; discriminate].
    cbn. now rewrite <- app_assoc.
Qed.

(** The body of the filter loop, run again on a "net" leaf, changes
    nothing more. *)
Lemma on_match_net_again (dev : Device) (key : string) (w : World) (n : nat) :
  Subsystem dev = "net" ->
  Nat.iter (S n) (on_match env dev key) w = on_match env dev key w.
Proof.
  intros Hs. induction n as [|n IH]; [reflexivity|].
  change (Nat.iter (S (S n)) (on_match env dev key) w)
    with (on_match env dev key (Nat.iter (S n) (on_match env dev key) w)).
  rewrite IH, !(on_match_net env dev _ _ Hs).
  unfold record_at, store, on_mgr, set_devices; cbn.
  rewrite lookup_insert_eq, insert_insert_eq. reflexivity.
Qed.

(** C8, as the code has it: an event of a "net" leaf that is not a
    removal and whose USB parent matches a filter stores the leaf's short
    name in [Net] of the record at the parent's path and changes nothing
    else: [Tty], [Imei] and [ready] of that record, every other record,
    the filters and the flags stay, no handler is called, no port is
    opened. *)
Theorem net_event_sets_Net_only (dev : Device) (usb : UsbDevice) (w : World) :
  Action dev ≠ "remove" -> Subsystem dev = "net" ->
  usb_parent dev = Some usb ->
  (1 <= matches usb (filters (mgr w)))%nat ->
  let key := usb_DevNode usb in
  let old := record_at key w in
  let new := mkModem (SysName dev) (Tty old) (Imei old) (ready old) in
  let w' := readDevice env dev w in
  w' = store key new w
  ∧ devices (mgr w') !! key = Some new
  ∧ (∀ k, k ≠ key -> devices (mgr w') !! k = devices (mgr w) !! k)
  ∧ trace w' = trace w
  ∧ fires (trace w') = fires (trace w).
Proof.
  intros Ha Hs Hp Hm key old new w'.
  assert (Hw' : w' = store key new w).
  { subst w'. rewrite (readDevice_leaf env dev usb) by auto.
    destruct (matches usb (filters (mgr w))) as [|n]; [lia|].
    rewrite (on_match_net_again dev (usb_DevNode usb) w n Hs).
    apply (on_match_net env dev (usb_DevNode usb) w Hs). }
  rewrite Hw'. repeat split.
  - cbn. apply lookup_insert_eq.
  - intros k Hk. cbn. apply lookup_insert_ne. congruence.
Qed.

(** Whatever the leaf, the body of the filter loop ends by storing a
    record under the parent's path. *)
Lemma on_match_stores (dev : Device) (key : string) (w : World) :
  is_Some (devices (mgr (on_match env dev key w)) !! key).
Proof.
  unfold on_match.
  destruct (decide (Subsystem dev = "tty" ∧ EPnum dev = "03")).
  - destruct (getImei _) as [imei [err|]];
      destruct (decide (Action dev ≠ "update"));
      cbn; rewrite lookup_insert_eq; eauto.
  - cbn. rewrite lookup_insert_eq. eauto.
Qed.

Lemma remove_lookup (rem : Device) (w : World) (k : string) :
  Action rem = "remove" ->
  devices (mgr (readDevice env rem w)) !! k
  = if decide (k = DevNode rem) then None else devices (mgr w) !! k.
Proof.
  intros Ha. rewrite (readDevice_remove env rem w Ha).
  destruct (devices (mgr w) !! DevNode rem) as [modem|] eqn:E.
  - cbn. destruct (decide (k = DevNode rem)) as [->|Hk].
    + apply lookup_delete_eq.
    + apply lookup_delete_ne. congruence.
  - destruct (decide (k = DevNode rem)) as [->|Hk]; [exact E|reflexivity].
Qed.

(** C10: a "remove" event deletes the record whose key is the event's own
    device node and no other. Records are stored under the device node of
    the USB parent, so after an event of a "tty" or "net" leaf has created
    or updated the record, the removal of that leaf (whose node is not the
    parent's) leaves the record where it is; a removal that carries the
    parent's node deletes it. *)
Theorem remove_is_keyed_by_own_node (leaf rem gone : Device) (usb : UsbDevice)
    (w0 w : World) :
  Action rem = "remove" ->
  Action leaf ≠ "remove" ->
  Subsystem leaf = "tty" ∨ Subsystem leaf = "net" ->
  usb_parent leaf = Some usb ->
  (1 <= matches usb (filters (mgr w0)))%nat ->
  DevNode rem = DevNode leaf -> DevNode leaf ≠ usb_DevNode usb ->
  Action gone = "remove" -> DevNode gone = usb_DevNode usb ->
  let key := usb_DevNode usb in
  let w1 := readDevice env leaf w0 in
  (∀ k, k ≠ DevNode rem ->
     devices (mgr (readDevice env rem w)) !! k = devices (mgr w) !! k)
  ∧ devices (mgr (readDevice env rem w)) !! DevNode rem = None
  ∧ is_Some (devices (mgr w1) !! key)
  ∧ devices (mgr (readDevice env rem w1)) !! key = devices (mgr w1) !! key
  ∧ devices (mgr (readDevice env gone w1)) !! key = None.
Proof.
  intros Hrem Hleaf Hs Hp Hm Hnode Hdiff Hgone Hgnode key w1.
  repeat split.
  - intros k Hk. rewrite (remove_lookup rem w k Hrem).
    destruct (decide (k = DevNode rem)); [contradiction|reflexivity].
  - rewrite (remove_lookup rem w _ Hrem).
    destruct (decide (DevNode rem = DevNode rem)); [reflexivity|contradiction].
  - subst w1. rewrite (readDevice_leaf env leaf usb) by auto.
    destruct (matches usb (filters (mgr w0))) as [|n]; [lia|].
    apply on_match_stores.
  - rewrite (remove_lookup rem w1 _ Hrem).
    destruct (decide (key = DevNode rem)) as [E|_]; [|reflexivity].
    exfalso. apply Hdiff. rewrite <- Hnode, <- E. reflexivity.
  - rewrite (remove_lookup gone w1 _ Hgone).
    destruct (decide (key = DevNode gone)) as [_|E]; [reflexivity|].
    exfalso. apply E. rewrite Hgnode. reflexivity.
Qed.

End Events.

Lemma add_tty03_makes_ready_witness :
  devices (mgr (readDevice ports_ok (tty0 "add") one_filter))
    !! "/dev/bus/usb/001/004" = Some modem0
  ∧ fires (trace (readDevice ports_ok (tty0 "add") one_filter))
    = [(add, modem0)].
Proof.
  assert (H := add_tty03_makes_ready ports_ok (tty0 "add") usb0 one_filter
                 "123456789012345").
  cbv zeta in H.
  destruct H as (H1 & _ & _ & _ & _ & H6);
    try reflexivity; try discriminate.
  split; assumption.
Defined.

(** ** The registry invariant *)

Lemma known_zero : known Modem_zero.
Proof. unfold known; cbn. discriminate. Qed.

Lemma ready_means_known_insert ds k d :
  ready_means_known ds -> known d -> ready_means_known (<[k := d]> ds).
Proof.
  intros Hds Hd k' d'. rewrite lookup_insert.
  destruct (decide (k = k')); [|apply Hds].
  intros [= <-]. exact Hd.
Qed.

Lemma ready_means_known_delete ds k :
  ready_means_known ds -> ready_means_known (delete k ds).
Proof.
  intros Hds k' d'. rewrite lookup_delete.
  destruct (decide (k = k')); [discriminate|apply Hds].
Qed.

Lemma ready_means_known_empty : ready_means_known ∅.
Proof. intros k d. rewrite lookup_empty. discriminate. Qed.

Lemma known_record_at key w :
  ready_means_known (devices (mgr w)) -> known (record_at key w).
Proof.
  intros Hw. unfold record_at.
  destruct (devices (mgr w) !! key) as [d|] eqn:E; cbn.
  - exact (Hw key d E).
  - exact known_zero.
Qed.

(** The loop that empties the map does empty it. *)
Lemma clear_is_empty (ds : gmap string Modem) : clear ds = ∅.
Proof.
  apply map_eq. intros k. rewrite lookup_empty. unfold clear.
  assert (H : ∀ (ks : list string) (m : gmap string Modem),
             foldr delete m ks !! k = if decide (k ∈ ks) then None else m !! k).
  { induction ks as [|k' ks IH]; intros m; cbn [foldr].
    - destruct (decide (k ∈ [])) as [Hin|_]; [|reflexivity].
      now apply not_elem_of_nil in Hin.
    - rewrite lookup_delete, IH.
      destruct (decide (k' = k)) as [->|Hne].
      + rewrite decide_True by (apply elem_of_cons; now left). reflexivity.
      + destruct (decide (k ∈ ks)) as [Hin|Hin].
        * rewrite decide_True by (apply elem_of_cons; now right). reflexivity.
        * rewrite decide_False; [reflexivity|].
          intros [E|Hin']%elem_of_cons; congruence. }
  rewrite H. destruct (decide (k ∈ (map_to_list ds).*1)) as [_|Hin];
    [reflexivity|].
  destruct (ds !! k) as [d|] eqn:E; [|reflexivity].
  exfalso. apply Hin. apply list_elem_of_fmap.
  exists (k, d). split; [reflexivity|]. now apply elem_of_map_to_list.
Qed.

Section Invariant.

Variable env : Serial.
Hypothesis Hports : sound_ports env.

Lemma on_match_keeps_invariant dev key w :
  ready_means_known (devices (mgr w)) ->
  ready_means_known (devices (mgr (on_match env dev key w))).
Proof.
  intros Hw. pose proof (known_record_at key w Hw) as Hd.
  unfold record_at in Hd. unfold on_match.
  set (d0 := default Modem_zero (devices (mgr w) !! key)) in *.
  assert (Hd1 : known (if decide (Subsystem dev = "net")
                       then mkModem (SysName dev) (Tty d0) (Imei d0) (ready d0)
                       else d0))
    by (destruct (decide (Subsystem dev = "net")); exact Hd).
  destruct (decide (Subsystem dev = "tty" ∧ EPnum dev = "03")).
  - destruct (getImei _) as [imei [err|]] eqn:Hi;
      destruct (decide (Action dev ≠ "update"));
      destruct (decide (Action dev = "add")); cbn in Hi |- *;
      apply ready_means_known_insert; try exact Hw; try exact Hd1;
      intros _; cbn; exact (Hports _ _ _ Hi).
  - cbn. apply ready_means_known_insert; assumption.
Qed.

Lemma readDevice_keeps_invariant dev w :
  ready_means_known (devices (mgr w)) ->
  ready_means_known (devices (mgr (readDevice env dev w))).
Proof.
  intros Hw. unfold readDevice.
  destruct (decide (Action dev = "remove")).
  - destruct (devices (mgr w) !! DevNode dev); [|exact Hw].
    cbn. now apply ready_means_known_delete.
  - destruct (decide (Subsystem dev ≠ "tty" ∧ Subsystem dev ≠ "net"));
      [exact Hw|].
    destruct (usb_parent dev) as [usb|]; [|exact Hw].
    rewrite range_filters.
    induction (matches usb (filters (mgr w))) as [|times IH]; [exact Hw|].
    rewrite Nat.iter_succ. now apply on_match_keeps_invariant.
Qed.

End Invariant.

(** ** What event processing leaves alone *)

Lemma on_match_control env dev key w :
  control (on_match env dev key w) = control w.
Proof.
  unfold on_match.
  destruct (decide (Subsystem dev = "tty" ∧ EPnum dev = "03")).
  - destruct (getImei _) as [imei [err|]];
      destruct (decide (Action dev ≠ "update"));
      destruct (decide (Action dev = "add")); reflexivity.
  - reflexivity.
Qed.

Lemma readDevice_control env dev w :
  control (readDevice env dev w) = control w.
Proof.
  unfold readDevice.
  destruct (decide (Action dev = "remove")).
  - destruct (devices (mgr w) !! DevNode dev); reflexivity.
  - destruct (decide (Subsystem dev ≠ "tty" ∧ Subsystem dev ≠ "net"));
      [reflexivity|].
    destruct (usb_parent dev) as [usb|]; [|reflexivity].
    rewrite range_filters.
    induction (matches usb (filters (mgr w))) as [|times IH]; [reflexivity|].
    rewrite Nat.iter_succ. now rewrite on_match_control.
Qed.

Lemma readDevice_monitoring env dev w :
  monitoring (mgr (readDevice env dev w)) = monitoring (mgr w).
Proof.
  pose proof (readDevice_control env dev w) as H.
  unfold control in H. congruence.
Qed.

Lemma monitor_step_monitoring u env recv p w :
  monitoring (mgr (monitor_step u env recv p w).2) = monitoring (mgr w).
Proof.
  destruct p as [|[|device rest]| |]; cbn.
  - destruct (enable_err u); reflexivity.
  - reflexivity.
  - apply readDevice_monitoring.
  - destruct (stopMonitor (mgr w)), recv; cbn;
      try apply readDevice_monitoring; reflexivity.
  - reflexivity.
Qed.

Lemma monitor_step_keeps_invariant u env recv p w :
  sound_ports env ->
  ready_means_known (devices (mgr w)) ->
  ready_means_known (devices (mgr (monitor_step u env recv p w).2)).
Proof.
  intros Hports Hw.
  destruct p as [|[|device rest]| |]; cbn.
  - destruct (enable_err u); exact Hw.
  - exact Hw.
  - now apply readDevice_keeps_invariant.
  - destruct (stopMonitor (mgr w)), recv; cbn;
      try (now apply readDevice_keeps_invariant); try exact Hw;
      rewrite clear_is_empty; apply ready_means_known_empty.
  - exact Hw.
Qed.

(** Nothing but [StopMonitor] writes [monitoring], and it writes [false]. *)
Lemma exec_monitoring u env o w :
  monitoring (mgr w) = false ->
  ∃ w', exec u env o w = Some w' ∧ monitoring (mgr w') = false.
Proof.
  intros Hm. destruct o as [a up r|v p| | | |i recv]; cbn.
  - eexists; split; [reflexivity|].
    destruct a, up, r; exact Hm.
  - eexists; split; [reflexivity|exact Hm].
  - eexists; split; [reflexivity|exact Hm].
  - eexists; split; [reflexivity|].
    unfold Monitor. rewrite Hm. exact Hm.
  - unfold StopMonitor. rewrite Hm. cbn.
    eexists; split; [reflexivity|exact Hm].
  - destruct (workers w !! i) as [p|]; [|eauto].
    pose proof (monitor_step_monitoring u env recv p w) as Hs.
    destruct (monitor_step u env recv p w) as [p' w1].
    eexists; split; [reflexivity|]. cbn in *. congruence.
Qed.

Lemma run_monitoring u env os w :
  monitoring (mgr w) = false ->
  ∃ w', run u env os w = Some w' ∧ monitoring (mgr w') = false.
Proof.
  revert w. induction os as [|o os IH]; intros w Hm; cbn [run].
  - eauto.
  - destruct (exec_monitoring u env o w Hm) as (w1 & -> & Hm1).
    exact (IH w1 Hm1).
Qed.

Lemma exec_keeps_invariant u env o w :
  sound_ports env ->
  ready_means_known (devices (mgr w)) ->
  match exec u env o w with
  | Some w' => ready_means_known (devices (mgr w'))
  | None => True
  end.
Proof.
  intros Hports Hw. destruct o as [a up r|v p| | | |i recv]; cbn.
  - destruct a, up, r; exact Hw.
  - exact Hw.
  - exact Hw.
  - unfold Monitor. destruct (monitoring (mgr w)); exact Hw.
  - unfold StopMonitor.
    destruct (monitoring (mgr w)); cbn; [|exact Hw].
    destruct (stopMonitor (mgr w)); cbn; try exact I; exact Hw.
  - destruct (workers w !! i) as [p|]; [|exact Hw].
    pose proof (monitor_step_keeps_invariant u env recv p w Hports Hw) as Hs.
    destruct (monitor_step u env recv p w) as [p' w1]. exact Hs.
Qed.

(** [List] hands out ready records only. *)
Lemma List_ready (m : Manager) k d :
  List m !! k = Some d <-> devices m !! k = Some d ∧ ready d = 1.
Proof. unfold List. now rewrite map_lookup_filter_Some. Qed.

(** C9, as the code has it: [ready] implies a non-empty [Tty] and a
    non-empty [Imei] for every record of the registry, and every operation
    (a caller's method or a step of a goroutine: enumeration, event
    processing, the emptying after a stop) keeps it so, provided that no
    identifier retrieval succeeds on an empty port name or with an
    identifier that is empty once trimmed. What [List] then returns
    satisfies it too. *)
Theorem ready_records_stay_known (u : Udev) (env : Serial) (os : list op)
    (w : World) :
  sound_ports env ->
  ready_means_known (devices (mgr w)) ->
  match run u env os w with
  | Some w' =>
      ready_means_known (devices (mgr w'))
      ∧ ready_means_known (List (mgr w'))
  | None => True
  end.
Proof.
  intros Hports. revert w.
  induction os as [|o os IH]; intros w Hw; cbn [run].
  - split; [exact Hw|].
    intros k d [Hd _]%List_ready. exact (Hw k d Hd).
  - pose proof (exec_keeps_invariant u env o w Hports Hw) as Ho.
    destruct (exec u env o w) as [w1|]; [|exact I].
    exact (IH w1 Ho).
Qed.

(** ** Start and stop *)

(** C1, what the code does: [Monitor] tests [monitoring], but nothing sets
    it: after [New] and a first [Monitor], whatever the callers and the
    goroutines do next ([os]), the program has not panicked and a further
    [Monitor] returns no error, makes a new channel and starts one more
    goroutine. *)
Theorem Monitor_again_is_accepted (u : Udev) (env : Serial) (os : list op) :
  ∃ w, run u env (call_Monitor :: os) boot = Some w
     ∧ monitoring (mgr w) = false
     ∧ Monitor w = (None, spawn (on_mgr (set_stopMonitor chan_open) w))
     ∧ workers (Monitor w).2 = workers w ++ [at_start].
Proof.
  destruct (run_monitoring u env os (Monitor boot).2 eq_refl) as (w & Hrun & Hm).
  exists w. split; [exact Hrun|]. split; [exact Hm|].
  unfold Monitor at 1 2. rewrite Hm. split; reflexivity.
Qed.

Example Monitor_twice :
  (Monitor (Monitor boot).2).1 = None
  ∧ workers (Monitor (Monitor boot).2).2 = [at_start; at_start].
Proof. split; reflexivity. Qed.

(** C2, what the code does: as [monitoring] is never set, [StopMonitor]
    after [New] and [Monitor] returns "Monitor already stopped." and
    changes nothing (the channel stays open), whatever happened in
    between. *)
Theorem StopMonitor_after_Monitor_is_refused (u : Udev) (env : Serial)
    (os : list op) :
  ∃ w, run u env (call_Monitor :: os) boot = Some w
     ∧ StopMonitor w = Some (Some (errors_New "Monitor already stopped."), w).
Proof.
  destruct (run_monitoring u env os (Monitor boot).2 eq_refl) as (w & Hrun & Hm).
  exists w. split; [exact Hrun|].
  unfold StopMonitor. rewrite Hm. reflexivity.
Qed.

Example StopMonitor_right_after_Monitor :
  (StopMonitor (Monitor boot).2) =
    Some (Some (errors_New "Monitor already stopped."), (Monitor boot).2).
Proof. reflexivity. Qed.

(** Had the flag been set, [StopMonitor] would close the channel. *)
Example StopMonitor_with_flag :
  StopMonitor (on_mgr (set_monitoring true) (Monitor boot).2) =
    Some (None, on_mgr (set_stopMonitor chan_closed) (Monitor boot).2).
Proof. reflexivity. Qed.

Lemma closed_channel_step u env recv w :
  stopMonitor (mgr w) = chan_closed ->
  monitor_step u env recv looping w
  = (looping, on_mgr (set_devices ∅) w).
Proof.
  intros Hc. unfold monitor_step. rewrite Hc.
  unfold on_mgr. now rewrite clear_is_empty.
Qed.

Lemma closed_channel_run u env recvs w :
  stopMonitor (mgr w) = chan_closed ->
  monitor_run u env recvs looping w
  = (looping, match recvs with [] => w | _ :: _ => on_mgr (set_devices ∅) w end).
Proof.
  revert w. induction recvs as [|recv recvs IH]; intros w Hc; [reflexivity|].
  cbn [monitor_run]. rewrite (closed_channel_step u env recv w Hc).
  rewrite IH by exact Hc. destruct recvs; reflexivity.
Qed.

(** Only a failure of [EnableReceiving] makes [monitor] return. *)
Lemma monitor_run_returned u env recvs p w :
  (monitor_run u env recvs p w).1 = returned ->
  p = returned ∨ (p = at_start ∧ enable_err u ≠ None).
Proof.
  revert p w. induction recvs as [|recv recvs IH]; intros p w; cbn [monitor_run].
  - cbn. auto.
  - destruct (monitor_step u env recv p w) as [p' w'] eqn:E. intros H.
    destruct (IH p' w' H) as [->|[-> _]].
    + destruct p as [|[|device rest]| |]; cbn in E.
      * destruct (enable_err u); [right; split; congruence|congruence].
      * congruence.
      * congruence.
      * destruct (stopMonitor (mgr w)), recv; congruence.
      * now left.
    + destruct p as [|[|device rest]| |]; cbn in E.
      * destruct (enable_err u); congruence.
      * congruence.
      * congruence.
      * destruct (stopMonitor (mgr w)), recv; congruence.
      * congruence.
Qed.

Lemma monitor_step_workers u env recv p w :
  workers (monitor_step u env recv p w).2 = workers w.
Proof.
  assert (Hrd : ∀ d, workers (readDevice env d w) = workers w).
  { intros d. pose proof (readDevice_control env d w) as H.
    unfold control in H. congruence. }
  destruct p as [|[|device rest]| |]; cbn.
  - destruct (enable_err u); reflexivity.
  - reflexivity.
  - apply Hrd.
  - destruct (stopMonitor (mgr w)), recv; cbn; try apply Hrd; reflexivity.
  - reflexivity.
Qed.

(** Whatever the callers and the other goroutines do, a goroutine that is
    in its loop is in its loop ever after. *)
Lemma looping_goes_on u env os w w' (i : nat) :
  workers w !! i = Some looping ->
  run u env os w = Some w' ->
  workers w' !! i = Some looping.
Proof.
  revert w. induction os as [|o os IH]; intros w Hi; cbn [run].
  - now intros [= <-].
  - destruct (exec u env o w) as [w1|] eqn:E; [|discriminate].
    apply IH. clear IH.
    destruct o as [a up r|v p| | | |j recv]; cbn in E.
    + injection E as <-. exact Hi.
    + injection E as <-. exact Hi.
    + injection E as <-. exact Hi.
    + injection E as <-. unfold Monitor.
      destruct (monitoring (mgr w)); cbn; [exact Hi|].
      now apply lookup_app_l_Some.
    + unfold StopMonitor in E.
      destruct (monitoring (mgr w)); cbn in E.
      * destruct (stopMonitor (mgr w)); cbn in E; try discriminate.
        injection E as <-. exact Hi.
      * injection E as <-. exact Hi.
    + destruct (workers w !! j) as [p|] eqn:Hj.
      * pose proof (monitor_step_workers u env recv p w) as Hw.
        destruct (monitor_step u env recv p w) as [p' w2] eqn:Hs.
        injection E as <-. cbn in *. rewrite Hw.
        destruct (decide (j = i)) as [->|Hne].
        -- assert (p = looping) by congruence. subst p.
           assert (p' = looping).
           { cbn in Hs. destruct (stopMonitor (mgr w)), recv; congruence. }
           subst p'. apply list_lookup_insert_eq.
           now apply lookup_lt_Some in Hi.
        -- now rewrite list_lookup_insert_ne.
      * injection E as <-. exact Hi.
Qed.

(** C3, what the code does: once the channel is closed, every iteration of
    the goroutine's loop empties the registry, calling no handler, and the
    goroutine is in the loop still: [break] leaves the [select] only, so
    [monitor] does not return, however often it is polled. *)
Theorem closed_channel_loop_goes_on (u : Udev) (env : Serial)
    (recv : option Device) (recvs : list (option Device)) (w : World) :
  let w0 := on_mgr (set_stopMonitor chan_closed) w in
  let after := monitor_run u env (recv :: recvs) looping w0 in
  after.1 = looping
  ∧ after.1 ≠ returned
  ∧ devices (mgr after.2) = ∅
  ∧ trace after.2 = trace w.
Proof.
  intros w0 after. subst after.
  rewrite (closed_channel_run u env (recv :: recvs) w0) by reflexivity.
  cbn. repeat split. discriminate.
Qed.

(** ** Which handler is called *)

Lemma record_at_store key d w : record_at key (store key d w) = d.
Proof. unfold record_at; cbn. now rewrite lookup_insert_eq. Qed.

(** On the tty / endpoint "03" branch the add handler is called unless the
    action is the string "update"; the record passed is the one stored. *)
Lemma tty03_handler_choice (env : Serial) (dev : Device) (usb : UsbDevice)
    (w : World) :
  Action dev ≠ "remove" -> Subsystem dev = "tty" -> EPnum dev = "03" ->
  usb_parent dev = Some usb ->
  matches usb (filters (mgr w)) = 1%nat ->
  let w' := readDevice env dev w in
  fires (trace w') =
    fires (trace w) ++
      [(if decide (Action dev ≠ "update") then add else update,
        record_at (usb_DevNode usb) w')].
Proof.
  intros Ha Hs He Hp Hm w'. subst w'.
  rewrite (readDevice_leaf env dev usb) by auto.
  rewrite Hm. cbn [Nat.iter nat_rect].
  destruct (getImei (env (DevNode dev) (opened w))) as [imei [err|]] eqn:Hi.
  - rewrite (on_match_tty_failed env dev _ w imei err Hs He Hi).
    rewrite record_at_store.
    destruct (decide (Action dev ≠ "update")), (decide (Action dev = "add"));
      cbn; rewrite !fires_app; cbn; now rewrite ?app_nil_r.
  - rewrite (on_match_tty_ok env dev _ w imei Hs He Hi).
    rewrite record_at_store.
    destruct (decide (Action dev ≠ "update")), (decide (Action dev = "add"));
      cbn; rewrite !fires_app; cbn; now rewrite ?app_nil_r.
Qed.

(** C4, what the code does: for a "change" event on the tty / endpoint
    "03" branch the add handler is called and the update handler is not;
    the test is against "update", which is no udev action. *)
Theorem change_event_calls_add_handler :
  trace (readDevice ports_ok (tty0 "change") one_filter)
  = [fire add on_add modem0]
  ∧ fires (trace (readDevice ports_ok (tty0 "change") after_tty))
    = [(add, modem0); (add, modem0)]
  ∧ trace (readDevice ports_ok (tty0 "update") one_filter)
    = [fire update on_update modem0].
Proof. repeat split; vm_compute; reflexivity. Qed.

(** ** The claims on concrete events *)

(** C6 as stated fails in two ways: with the same filter added twice the
    add handler is called twice for one "add" event; and a 25-byte reply
    that starts with 17 blanks is a success of [getImei] that leaves a
    ready record without identifier. *)
Lemma add_event_twice_or_blank :
  matches usb0 (filters (mgr same_filter_twice)) = 2%nat
  ∧ getImei session_ok = ("123456789012345", None)
  ∧ fires (trace (readDevice ports_ok (tty0 "add") same_filter_twice))
    = [(add, modem0); (add, modem0)]
  ∧ getImei session_blank = ("", None)
  ∧ devices (mgr (readDevice ports_blank (tty0 "add") one_filter))
      !! "/dev/bus/usb/001/004"
    = Some (mkModem "" "/dev/ttyUSB0" "" 1).
Proof. repeat split; vm_compute; reflexivity. Qed.

Lemma failed_retrieval_still_reported_witness :
  devices (mgr (readDevice ports_short (tty0 "add") one_filter))
  = <[ "/dev/bus/usb/001/004" := Modem_zero ]> ∅
  ∧ trace (readDevice ports_short (tty0 "add") one_filter)
    = [sleep 5; fire add on_add Modem_zero].
Proof.
  assert (H := failed_retrieval_still_reported ports_short (tty0 "add") usb0
                 one_filter "" (errors_New "Invalid Imei")).
  cbv zeta in H.
  destruct H as (H1 & _ & _ & H4);
    try reflexivity; try discriminate.
  split; [exact H1|exact (H4 eq_refl)].
Defined.

(** C7 as stated fails in two ways: with the same filter added twice the
    add handler is called twice with the record that is not ready; and a
    record that was ready stays ready, with its identifier, when a later
    retrieval for the same modem fails. *)
Lemma failed_retrieval_twice_or_ready :
  matches usb0 (filters (mgr same_filter_twice)) = 2%nat
  ∧ getImei session_10 = ("", Some (errors_New "Invalid Imei"))
  ∧ fires (trace (readDevice ports_short (tty0 "add") same_filter_twice))
    = [(add, Modem_zero); (add, Modem_zero)]
  ∧ devices (mgr (readDevice ports_short (tty0 "change") after_tty))
      !! "/dev/bus/usb/001/004"
    = Some (mkModem "" "/dev/ttyUSB0" "123456789012345" 1).
Proof. repeat split; vm_compute; reflexivity. Qed.

Lemma net_event_sets_Net_only_witness :
  devices (mgr (readDevice ports_ok (net0 "add") after_tty))
    !! "/dev/bus/usb/001/004"
  = Some (mkModem "wwan0" "/dev/ttyUSB0" "123456789012345" 1)
  ∧ trace (readDevice ports_ok (net0 "add") after_tty) = trace after_tty.
Proof.
  assert (H := net_event_sets_Net_only ports_ok (net0 "add") usb0 after_tty).
  cbv zeta in H.
  destruct H as (_ & H2 & _ & H4 & _);
    [discriminate | reflexivity | reflexivity | vm_compute; lia | ].
  split; [exact H2|exact H4].
Defined.

(** C8 as stated covers every event of a "net" leaf: the removal of the
    leaf is one, and it is handled before the subsystem is read. The
    record at the parent's path keeps its empty [Net]; the leaf's name is
    not stored. *)
Lemma net_remove_event_sets_nothing :
  Subsystem (net0 "remove") = "net"
  ∧ SysName (net0 "remove") = "wwan0"
  ∧ matches usb0 (filters (mgr after_tty)) = 1%nat
  ∧ devices (mgr after_tty) !! "/dev/bus/usb/001/004" = Some modem0
  ∧ Net modem0 = ""
  ∧ devices (mgr (readDevice ports_ok (net0 "remove") after_tty))
      !! "/dev/bus/usb/001/004" = Some modem0.
Proof. repeat split; vm_compute; reflexivity. Qed.

Example history0_registry :
  (fun w => (map_to_list (devices (mgr w)), trace w))
    <$> run udev0 ports_named history0 boot
  = Some ([("/dev/bus/usb/001/004",
            mkModem "wwan0" "/dev/ttyUSB0" "123456789012345" 1)],
          [fire add noop modem0; sleep 1; sleep 1]).
Proof. vm_compute. reflexivity. Qed.

Lemma ready_records_stay_known_witness :
  ∃ w', run udev0 ports_named history0 boot = Some w'
      ∧ ready_means_known (devices (mgr w'))
      ∧ ready_means_known (List (mgr w')).
Proof.
  assert (H := ready_records_stay_known udev0 ports_named history0 boot).
  destruct (run udev0 ports_named history0 boot) as [w'|] eqn:E.
  - exists w'. split; [reflexivity|]. apply H.
    + intros port k imei. unfold ports_named.
      destruct (decide (port = "")) as [->|Hne].
      * discriminate.
      * intros [= <-]. split; [exact Hne|discriminate].
    + exact ready_means_known_empty.
  - vm_compute in E. discriminate E.
Defined.

(** C9 as stated fails: the empty registry satisfies the invariant, and
    one "add" event answered by 25 blank bytes leaves a record that is
    ready and has no identifier. *)
Lemma blank_reply_breaks_invariant :
  devices (mgr one_filter) = ∅
  ∧ getImei session_blank = ("", None)
  ∧ devices (mgr (readDevice ports_blank (tty0 "add") one_filter))
      !! "/dev/bus/usb/001/004"
    = Some (mkModem "" "/dev/ttyUSB0" "" 1)
  ∧ ¬ ready_means_known
        (devices (mgr (readDevice ports_blank (tty0 "add") one_filter))).
Proof.
  repeat split; try (vm_compute; reflexivity).
  intros H.
  assert (E : devices (mgr (readDevice ports_blank (tty0 "add") one_filter))
                !! "/dev/bus/usb/001/004"
              = Some (mkModem "" "/dev/ttyUSB0" "" 1))
    by (vm_compute; reflexivity).
  destruct (H _ _ E eq_refl) as [_ Himei]. apply Himei. reflexivity.
Qed.

Lemma remove_is_keyed_by_own_node_witness :
  is_Some (devices (mgr after_tty) !! "/dev/bus/usb/001/004")
  ∧ devices (mgr (readDevice ports_ok (tty0 "remove") after_tty))
      !! "/dev/bus/usb/001/004"
    = devices (mgr after_tty) !! "/dev/bus/usb/001/004"
  ∧ devices (mgr (readDevice ports_ok (usb0_event "remove") after_tty))
      !! "/dev/bus/usb/001/004" = None.
Proof.
  assert (H := remove_is_keyed_by_own_node ports_ok (tty0 "add")
                 (tty0 "remove") (usb0_event "remove") usb0 one_filter
                 after_tty).
  cbv zeta in H.
  destruct H as (_ & _ & H3 & H4 & H5);
    [ reflexivity | discriminate | left; reflexivity | reflexivity
    | vm_compute; lia | reflexivity | discriminate | reflexivity
    | reflexivity | ].
  split; [exact H3|]. split; [exact H4|exact H5].
Defined.

(** * Further properties *)

(** ** getImei *)

Lemma TrimLeft_length cutset s :
  (length (TrimLeft cutset s) <= length s)%nat.
Proof.
  induction s as [|c r IH]; cbn [TrimLeft]; [reflexivity|].
  destruct (in_cutset cutset c); cbn [length]; lia.
Qed.

Lemma string_of_list_ascii_length l :
  String.length (string_of_list_ascii l) = length l.
Proof. induction l as [|c l IH]; cbn; congruence. Qed.

Lemma Trim_length (s cutset : string) :
  (String.length (Trim s cutset) <= String.length s)%nat.
Proof.
  unfold Trim, TrimRight. rewrite string_of_list_ascii_length.
  etransitivity; [apply TrimLeft_length|].
  rewrite length_reverse.
  etransitivity; [apply TrimLeft_length|].
  rewrite length_reverse.
  rewrite <- (string_of_list_ascii_length (list_ascii_of_string s)).
  now rewrite string_of_list_ascii_of_string.
Qed.

Lemma getImei_length (s : Session) :
  (String.length (fst (getImei s)) <= IMEILEN)%nat.
Proof.
  unfold IMEILEN.
  destruct (open_err s) as [e|] eqn:Ho;
    [unfold getImei; rewrite Ho; cbn; lia|].
  destruct (write_err s) as [e|] eqn:Hw;
    [unfold getImei; rewrite Ho, Hw; cbn; lia|].
  rewrite (getImei_after_write s Ho Hw).
  destruct (read2_err s); [cbn; lia|].
  destruct (decide (second_read_n s ≠ 25)); [cbn; lia|]. cbn [fst].
  etransitivity; [apply Trim_length|].
  rewrite string_of_list_ascii_length, length_take. unfold IMEILEN. lia.
Qed.

(** X1. Whatever the port does, [getImei] returns an identifier of at most
    17 bytes; when it returns an error the identifier is the empty string,
    and the error is the port's own (open, write or second read) or
    "Invalid Imei". *)
Theorem getImei_result_bounds (s : Session) :
  (String.length (fst (getImei s)) <= 17)%nat
  ∧ ∀ e, snd (getImei s) = Some e ->
      fst (getImei s) = ""
      ∧ (open_err s = Some e ∨ write_err s = Some e ∨ read2_err s = Some e
         ∨ e = errors_New "Invalid Imei").
Proof.
  split; [exact (getImei_length s)|]. intros e.
  destruct (open_err s) as [eo|] eqn:Ho.
  { unfold getImei; rewrite Ho; cbn. intros [= <-]. auto. }
  destruct (write_err s) as [ew|] eqn:Hw.
  { unfold getImei; rewrite Ho, Hw; cbn. intros [= <-]. auto. }
  rewrite (getImei_after_write s Ho Hw).
  destruct (read2_err s) as [er|]; [cbn; intros [= <-]; auto|].
  destruct (decide (second_read_n s ≠ 25)); cbn; [|discriminate].
  intros [= <-]. auto 6.
Qed.

(** X2. The first read only discards the echo: what it delivers has no
    influence on the result, although both reads use the same buffer. *)
Theorem getImei_ignores_first_read (o wr : option error) (r1 r1' r2 : list ascii)
    (e : option error) :
  getImei (mkSession o wr r1 r2 e) = getImei (mkSession o wr r1' r2 e).
Proof.
  destruct o as [eo|]; [reflexivity|].
  destruct wr as [ew|]; [reflexivity|].
  now rewrite !getImei_after_write by reflexivity.
Qed.

(** ** Filters and handlers *)

Lemma matches_app usb fs gs :
  matches usb (fs ++ gs) = (matches usb fs + matches usb gs)%nat.
Proof.
  induction fs as [|f fs IH]; cbn [app matches]; [reflexivity|].
  rewrite IH. lia.
Qed.

(** X3. [AddFilter(v, p)] adds one matching entry for the devices with
    vendor [v] and product [p], also when the pair is in the list already,
    and none for any other device; no entry is lost, and the registry, the
    flags and the handlers are not touched. *)
Theorem AddFilter_counts (usb : UsbDevice) (v p : string) (m : Manager) :
  matches usb (filters (AddFilter v p m))
  = (matches usb (filters m)
     + if decide (idVendor usb = v ∧ idProduct usb = p) then 1 else 0)%nat
  ∧ (matches usb (filters m) <= matches usb (filters (AddFilter v p m)))%nat
  ∧ set_filters (filters m) (AddFilter v p m) = m.
Proof.
  assert (E : matches usb (filters (AddFilter v p m))
              = (matches usb (filters m)
                 + if decide (idVendor usb = v ∧ idProduct usb = p)
                   then 1 else 0)%nat).
  { cbn. rewrite matches_app. cbn. destruct (decide _); lia. }
  split; [exact E|]. split; [lia|]. now destruct m.
Qed.

(** X4. [AddHandler] replaces exactly the handlers given as non-nil, two
    registrations amount to one in which the later non-nil handler wins,
    and nothing but the three handlers is written. *)
Theorem AddHandler_composes (a1 u1 r1 a2 u2 r2 : option handler) (m : Manager) :
  AddHandler a2 u2 r2 (AddHandler a1 u1 r1 m)
  = AddHandler (later a2 a1) (later u2 u1) (later r2 r1) m
  ∧ AddHandler a1 u1 r1 m
    = mkManager (filters m) (devices m) (stopMonitor m) (monitoring m)
        (registered a1 (handleAdd m)) (registered r1 (handleRemove m))
        (registered u1 (handleUpdate m)).
Proof.
  destruct m, a1, u1, r1, a2, u2, r2; split; reflexivity.
Qed.

(** ** Events that are ignored, removals, other interfaces *)

Section MoreEvents.

Variable env : Serial.

(** X5. An event that is no removal changes nothing at all (no record, no
    handler call, no port opened) when its subsystem is neither "tty" nor
    "net", when it has no USB parent, or when the parent matches no
    filter. *)
Theorem readDevice_ignores (dev : Device) (w : World) :
  Action dev ≠ "remove" ->
  (Subsystem dev ≠ "tty" ∧ Subsystem dev ≠ "net")
  ∨ usb_parent dev = None
  ∨ (∃ usb, usb_parent dev = Some usb
            ∧ matches usb (filters (mgr w)) = 0%nat) ->
  readDevice env dev w = w.
Proof.
  intros Ha Hwhy. unfold readDevice.
  destruct (decide (Action dev = "remove")); [contradiction|].
  destruct (decide (Subsystem dev ≠ "tty" ∧ Subsystem dev ≠ "net"));
    [reflexivity|].
  destruct Hwhy as [Hs|[Hp|(usb & Hp & Hm)]]; [contradiction| |].
  - now rewrite Hp.
  - rewrite Hp, range_filters, Hm. reflexivity.
Qed.

(** X6. A "remove" event deletes the record stored under the event's own
    device node; the remove handler is called once, with the record as it
    was stored, when there was one, and not at all otherwise; no port is
    opened; the same event a second time changes nothing. *)
Theorem remove_event_effects (dev : Device) (w : World) :
  Action dev = "remove" ->
  let w' := readDevice env dev w in
  devices (mgr w') = delete (DevNode dev) (devices (mgr w))
  ∧ trace w' = trace w ++
      match devices (mgr w) !! DevNode dev with
      | Some modem => [fire remove (handleRemove (mgr w)) modem]
      | None => []
      end
  ∧ opened w' = opened w
  ∧ readDevice env dev w' = w'.
Proof.
  intros Ha w'. subst w'. rewrite !(readDevice_remove env dev _ Ha).
  destruct (devices (mgr w) !! DevNode dev) as [modem|] eqn:E.
  - cbn. rewrite lookup_delete_eq. repeat split.
  - rewrite E. repeat split.
    + symmetry. now apply delete_id.
    + now rewrite app_nil_r.
Qed.

Lemma store_again key d d' w :
  store key d' (store key d w) = store key d' w.
Proof.
  unfold store, on_mgr, set_devices; cbn. now rewrite insert_insert_eq.
Qed.

(** A loop body that rewrites the record under [key] by a function that
    changes nothing when applied again has the effect of one run however
    often it runs. *)
Lemma iter_store (g : World -> World) (f : Modem -> Modem) key :
  (∀ w, g w = store key (f (record_at key w)) w) ->
  (∀ d, f (f d) = f d) ->
  ∀ n w, Nat.iter (S n) g w = g w.
Proof.
  intros Hg Hf n w. induction n as [|n IH]; [reflexivity|].
  rewrite Nat.iter_succ, IH, !Hg, record_at_store, Hf.
  apply store_again.
Qed.

Lemma on_match_other_tty dev key w :
  Subsystem dev = "tty" -> EPnum dev ≠ "03" ->
  on_match env dev key w = store key (record_at key w) w.
Proof.
  intros Hs He. unfold on_match, record_at.
  destruct (decide (Subsystem dev = "net")) as [Hn|_];
    [rewrite Hs in Hn; discriminate|].
  destruct (decide (Subsystem dev = "tty" ∧ EPnum dev = "03")) as [[_ E]|_];
    [contradiction|reflexivity].
Qed.

(** X7. An event of a "tty" leaf whose endpoint count is not "03", with a
    matching parent, opens no port and calls no handler, but it does write
    the registry: the record at the parent's path is stored back as it
    was, and a record that did not exist is created as the zero record
    (not ready). *)
Theorem other_tty_interface_stores_placeholder (dev : Device) (usb : UsbDevice)
    (w : World) :
  Action dev ≠ "remove" -> Subsystem dev = "tty" -> EPnum dev ≠ "03" ->
  usb_parent dev = Some usb ->
  (1 <= matches usb (filters (mgr w)))%nat ->
  let key := usb_DevNode usb in
  let w' := readDevice env dev w in
  w' = store key (record_at key w) w
  ∧ devices (mgr w') !! key = Some (record_at key w)
  ∧ (devices (mgr w) !! key = None ->
     devices (mgr w') !! key = Some Modem_zero)
  ∧ trace w' = trace w ∧ opened w' = opened w.
Proof.
  intros Ha Hs He Hp Hm key w'.
  assert (Hw' : w' = store key (record_at key w) w).
  { subst w'. rewrite (readDevice_leaf env dev usb) by auto.
    destruct (matches usb (filters (mgr w))) as [|n]; [lia|].
    rewrite (iter_store _ (fun d => d) (usb_DevNode usb)); [| |reflexivity].
    - now apply on_match_other_tty.
    - intros w1. now apply on_match_other_tty. }
  rewrite Hw'. repeat split.
  - cbn. apply lookup_insert_eq.
  - intros Hnone. cbn. rewrite lookup_insert_eq.
    unfold record_at. now rewrite Hnone.
Qed.

End MoreEvents.

Lemma readDevice_ignores_witness :
  readDevice ports_ok (usb0_event "add") one_filter = one_filter
  ∧ readDevice ports_ok (tty0 "add") boot = boot.
Proof.
  split.
  - apply (readDevice_ignores ports_ok (usb0_event "add") one_filter).
    + discriminate.
    + left. split; discriminate.
  - apply (readDevice_ignores ports_ok (tty0 "add") boot).
    + discriminate.
    + right. right. exists usb0. split; reflexivity.
Defined.

Lemma remove_event_effects_witness :
  trace (readDevice ports_ok (usb0_event "remove") after_tty)
  = trace after_tty ++ [fire remove on_remove modem0]
  ∧ devices (mgr (readDevice ports_ok (usb0_event "remove") after_tty))
    = delete "/dev/bus/usb/001/004" (devices (mgr after_tty)).
Proof.
  assert (H := remove_event_effects ports_ok (usb0_event "remove") after_tty
                 eq_refl).
  cbv zeta in H. destruct H as (H1 & H2 & _ & _).
  split; [exact H2|exact H1].
Defined.

Lemma other_tty_interface_stores_placeholder_witness :
  devices (mgr (readDevice ports_ok (tty1 "add") one_filter))
    !! "/dev/bus/usb/001/004" = Some Modem_zero
  ∧ trace (readDevice ports_ok (tty1 "add") one_filter) = [].
Proof.
  assert (H := other_tty_interface_stores_placeholder ports_ok (tty1 "add")
                 usb0 one_filter).
  cbv zeta in H.
  destruct H as (_ & _ & H3 & H4 & _);
    [discriminate | reflexivity | discriminate | reflexivity
    | vm_compute; lia | ].
  split; [exact (H3 eq_refl)|exact H4].
Defined.

(** ** The footprint of an event *)

Section Footprint.

Variable env : Serial.

(** One run of the loop body on the tty / endpoint "03" branch: one port
    opened, one handler call, in the slot the action selects. *)
Lemma on_match_tty03_once dev key w :
  Subsystem dev = "tty" -> EPnum dev = "03" ->
  opened (on_match env dev key w) = S (opened w)
  ∧ ∃ d, fires (trace (on_match env dev key w))
         = fires (trace w) ++ [(slot_of (Action dev), d)].
Proof.
  intros Hs He. unfold slot_of.
  destruct (getImei (env (DevNode dev) (opened w))) as [imei [err|]] eqn:Hi.
  - rewrite (on_match_tty_failed env dev key w imei err Hs He Hi).
    destruct (decide (Action dev ≠ "update")), (decide (Action dev = "add"));
      (split; [reflexivity|]); eexists; cbn; rewrite !fires_app; cbn;
      rewrite ?app_nil_r; reflexivity.
  - rewrite (on_match_tty_ok env dev key w imei Hs He Hi).
    destruct (decide (Action dev ≠ "update")), (decide (Action dev = "add"));
      (split; [reflexivity|]); eexists; cbn; rewrite !fires_app; cbn;
      rewrite ?app_nil_r; reflexivity.
Qed.

(** X8. On the tty / endpoint "03" branch the body of the filter loop runs
    once for every entry of the filter list that the parent matches:
    that many ports are opened and that many handler calls are made, all
    in the slot chosen by the action ("add" unless the action is
    "update"). *)
Theorem tty03_runs_once_per_match (dev : Device) (usb : UsbDevice) (w : World) :
  Action dev ≠ "remove" -> Subsystem dev = "tty" -> EPnum dev = "03" ->
  usb_parent dev = Some usb ->
  let n := matches usb (filters (mgr w)) in
  let w' := readDevice env dev w in
  opened w' = (opened w + n)%nat
  ∧ ∃ ds, length ds = n
        ∧ fires (trace w')
          = fires (trace w) ++ map (fun d => (slot_of (Action dev), d)) ds.
Proof.
  intros Ha Hs He Hp n w'. subst w'.
  rewrite (readDevice_leaf env dev usb) by auto. fold n. clearbody n.
  induction n as [|n (IHo & ds & IHl & IHf)].
  - cbn. split; [lia|]. exists []. split; [reflexivity|].
    now rewrite app_nil_r.
  - rewrite Nat.iter_succ.
    destruct (on_match_tty03_once dev (usb_DevNode usb)
                (Nat.iter n (on_match env dev (usb_DevNode usb)) w) Hs He)
      as (Ho & d & Hf).
    split; [rewrite Ho, IHo; lia|].
    exists (ds ++ [d]). split; [rewrite length_app, IHl; cbn; lia|].
    rewrite Hf, IHf, map_app, <- app_assoc. reflexivity.
Qed.

Lemma on_match_footprint dev key w :
  (∃ t, trace (on_match env dev key w) = trace w ++ t)
  ∧ (opened w <= opened (on_match env dev key w))%nat
  ∧ ∀ k, k ≠ key ->
      devices (mgr (on_match env dev key w)) !! k = devices (mgr w) !! k.
Proof.
  unfold on_match.
  destruct (decide (Subsystem dev = "tty" ∧ EPnum dev = "03")).
  - destruct (getImei _) as [imei [err|]];
      destruct (decide (Action dev ≠ "update"));
      destruct (decide (Action dev = "add")); cbn;
      (split; [rewrite <- ?app_assoc; eexists; reflexivity|]);
      (split; [lia|]); intros k Hk; apply lookup_insert_ne; congruence.
  - cbn. split; [exists []; now rewrite app_nil_r|]. split; [lia|].
    intros k Hk. apply lookup_insert_ne. congruence.
Qed.

(** X9. Whatever the event, [readDevice] only appends to the trace, never
    lowers the count of opened ports, leaves the filters, the channel, the
    flag, the handlers and the goroutines alone, and writes at most one
    key of the registry: the event's own device node for a removal, the
    device node of the USB parent otherwise. *)
Theorem readDevice_footprint (dev : Device) (w : World) :
  let w' := readDevice env dev w in
  control w' = control w
  ∧ (∃ t, trace w' = trace w ++ t)
  ∧ (opened w <= opened w')%nat
  ∧ ∀ k, touched dev ≠ Some k ->
      devices (mgr w') !! k = devices (mgr w) !! k.
Proof.
  intros w'. split; [apply readDevice_control|]. subst w'.
  unfold readDevice, touched.
  destruct (decide (Action dev = "remove")).
  - destruct (devices (mgr w) !! DevNode dev); cbn.
    + split; [eauto|]. split; [lia|].
      intros k Hk. apply lookup_delete_ne. congruence.
    + split; [exists []; now rewrite app_nil_r|]. split; [lia|reflexivity].
  - destruct (decide (Subsystem dev ≠ "tty" ∧ Subsystem dev ≠ "net")).
    { split; [exists []; now rewrite app_nil_r|]. split; [lia|reflexivity]. }
    destruct (usb_parent dev) as [usb|]; cbn.
    2:{ split; [exists []; now rewrite app_nil_r|]. split; [lia|reflexivity]. }
    rewrite range_filters.
    induction (matches usb (filters (mgr w)))
      as [|times ((t & IHt) & IHo & IHk)].
    + cbn. split; [exists []; now rewrite app_nil_r|]. split; [lia|reflexivity].
    + rewrite Nat.iter_succ.
      destruct (on_match_footprint dev (usb_DevNode usb)
                  (Nat.iter times (on_match env dev (usb_DevNode usb)) w))
        as ((t' & Ht) & Ho & Hk).
      split; [exists (t ++ t'); now rewrite Ht, IHt, app_assoc|].
      split; [lia|].
      intros k Hne. rewrite Hk by congruence. now apply IHk.
Qed.

End Footprint.

Lemma tty03_runs_once_per_match_witness :
  opened (readDevice ports_ok (tty0 "add") same_filter_twice) = 2%nat.
Proof.
  assert (H := tty03_runs_once_per_match ports_ok (tty0 "add") usb0
                 same_filter_twice).
  cbv zeta in H.
  destruct H as (H1 & _);
    [discriminate | reflexivity | reflexivity | reflexivity | ].
  exact H1.
Defined.

(** ** Properties of every record *)

Section EveryRecord.

Variable env : Serial.
Variable Q : Modem -> Prop.
Hypothesis Q_zero : Q Modem_zero.
Hypothesis Q_net :
  ∀ d name, Q d -> Q (mkModem name (Tty d) (Imei d) (ready d)).
Hypothesis Q_tty :
  ∀ d port k imei,
    Q d -> getImei (env port k) = (imei, None) -> Q (mkModem (Net d) port imei 1).






End EveryRecord.




(** ** The goroutine *)

Lemma monitor_run_returned_stays u env recvs w :
  monitor_run u env recvs returned w = (returned, w).
Proof. induction recvs as [|recv recvs IH]; [reflexivity|exact IH]. Qed.

Lemma monitor_run_enumerating u env ds :
  ∀ recvs w, length recvs = S (length ds) ->
    monitor_run u env recvs (enumerating ds) w = (looping, process env ds w).
Proof.
  induction ds as [|d ds IH]; intros [|recv recvs] w Hlen;
    try discriminate Hlen; cbn [monitor_run monitor_step].
  - destruct recvs; [reflexivity|discriminate Hlen].
  - apply IH. cbn in Hlen. lia.
Qed.

(** X12. A goroutine that starts [monitor] first processes the scanned
    devices, each once and in the order of the scan, and is then in its
    loop; what the monitor socket would deliver in the meantime is not
    read. When [EnableReceiving] fails it returns at once and nothing is
    processed. *)
Theorem monitor_enumerates_in_order (u : Udev) (env : Serial)
    (recvs : list (option Device)) (w : World) :
  length recvs = S (S (length (scan u))) ->
  monitor_run u env recvs at_start w
  = match enable_err u with
    | None => (looping, process env (scan u) w)
    | Some _ => (returned, w)
    end.
Proof.
  destruct recvs as [|recv recvs]; [discriminate|]. intros [= Hlen].
  cbn [monitor_run monitor_step]. destruct (enable_err u).
  - apply monitor_run_returned_stays.
  - now apply monitor_run_enumerating.
Qed.

Lemma monitor_enumerates_in_order_witness :
  monitor_run udev0 ports_ok [None; Some (net0 "add"); None] at_start one_filter
  = (looping, readDevice ports_ok (tty0 "") one_filter).
Proof.
  exact (monitor_enumerates_in_order udev0 ports_ok
           [None; Some (net0 "add"); None] one_filter eq_refl).
Defined.

Lemma poll_stopMonitor env w recv :
  stopMonitor (mgr (poll env w recv)) = stopMonitor (mgr w).
Proof.
  destruct recv as [d|]; [|reflexivity]. cbn.
  pose proof (readDevice_control env d w) as H. unfold control in H.
  congruence.
Qed.

(** X13. While the channel is not closed, a goroutine in its loop handles
    what the monitor socket delivers strictly in order: each device goes
    through [readDevice], each empty poll costs one second of sleep and
    changes nothing else. *)
Theorem monitor_loop_in_order (u : Udev) (env : Serial)
    (recvs : list (option Device)) (w : World) :
  stopMonitor (mgr w) ≠ chan_closed ->
  monitor_run u env recvs looping w = (looping, foldl (poll env) w recvs).
Proof.
  revert w. induction recvs as [|recv recvs IH]; intros w Hc; [reflexivity|].
  cbn [monitor_run foldl].
  assert (Hs : monitor_step u env recv looping w = (looping, poll env w recv)).
  { cbn. destruct (stopMonitor (mgr w)), recv; (reflexivity || contradiction). }
  rewrite Hs. apply IH. now rewrite poll_stopMonitor.
Qed.

Lemma monitor_loop_in_order_witness :
  monitor_run udev0 ports_ok [Some (tty0 "add"); None; Some (net0 "add")]
    looping one_filter
  = (looping,
     readDevice ports_ok (net0 "add")
       (emit (sleep 1) (readDevice ports_ok (tty0 "add") one_filter))).
Proof.
  apply (monitor_loop_in_order udev0 ports_ok
           [Some (tty0 "add"); None; Some (net0 "add")] one_filter).
  discriminate.
Defined.

(** ** Start and stop, once more *)



(** X15. On a Manager whose flag is set and whose channel is open,
    [Monitor] is refused with "Monitor is already started" and starts
    nothing, and [StopMonitor] succeeds: it closes the channel and clears
    the flag but does not empty the registry itself; after it a second
    [StopMonitor] is refused and [Monitor] is accepted again. *)
Theorem StopMonitor_when_flag_set (w : World) :
  monitoring (mgr w) = true -> stopMonitor (mgr w) = chan_open ->
  Monitor w = (Some (errors_New "Monitor is already started"), w)
  ∧ ∃ w', StopMonitor w = Some (None, w')
        ∧ monitoring (mgr w') = false
        ∧ stopMonitor (mgr w') = chan_closed
        ∧ devices (mgr w') = devices (mgr w)
        ∧ workers w' = workers w
        ∧ StopMonitor w'
          = Some (Some (errors_New "Monitor already stopped."), w')
        ∧ fst (Monitor w') = None.
Proof.
  intros Hm Hc. unfold Monitor at 1. rewrite Hm. split; [reflexivity|].
  unfold StopMonitor at 1. rewrite Hm, Hc. cbn.
  eexists. split; [reflexivity|]. repeat split.
Qed.

Lemma StopMonitor_when_flag_set_witness :
  Monitor flagged = (Some (errors_New "Monitor is already started"), flagged)
  ∧ ∃ w', StopMonitor flagged = Some (None, w')
        ∧ stopMonitor (mgr w') = chan_closed.
Proof.
  destruct (StopMonitor_when_flag_set flagged eq_refl eq_refl)
    as (H1 & w' & H2 & _ & H4 & _).
  split; [exact H1|]. exists w'. split; [exact H2|exact H4].
Defined.

(** ** How events compose *)

Section Composition.

Variable env : Serial.

Lemma iter_on_match_other_keys dev key n w k :
  k ≠ key ->
  devices (mgr (Nat.iter n (on_match env dev key) w)) !! k
  = devices (mgr w) !! k.
Proof.
  intros Hk. induction n as [|n IH]; [reflexivity|].
  rewrite Nat.iter_succ.
  destruct (on_match_footprint env dev key
              (Nat.iter n (on_match env dev key) w)) as (_ & _ & H).
  now rewrite H.
Qed.

Lemma iter_on_match_filters dev key n w :
  filters (mgr (Nat.iter n (on_match env dev key) w)) = filters (mgr w)
  ∧ handleRemove (mgr (Nat.iter n (on_match env dev key) w))
    = handleRemove (mgr w).
Proof.
  induction n as [|n [IH1 IH2]]; [split; reflexivity|].
  rewrite Nat.iter_succ.
  pose proof (on_match_control env dev key
                (Nat.iter n (on_match env dev key) w)) as H.
  unfold control in H. split; congruence.
Qed.

Lemma readDevice_net_once dev usb w :
  Action dev ≠ "remove" -> Subsystem dev = "net" ->
  usb_parent dev = Some usb ->
  (1 <= matches usb (filters (mgr w)))%nat ->
  readDevice env dev w
  = store (usb_DevNode usb)
      (with_net (SysName dev) (record_at (usb_DevNode usb) w)) w.
Proof.
  intros Ha Hs Hp Hm. rewrite (readDevice_leaf env dev usb) by auto.
  destruct (matches usb (filters (mgr w))) as [|n]; [lia|].
  rewrite (iter_store _ (with_net (SysName dev)) (usb_DevNode usb));
    [| |reflexivity].
  - now apply on_match_net.
  - intros w1. now apply on_match_net.
Qed.

(** The loop body on the tty / endpoint "03" branch, run on a world and on
    the same world after the "net" event, keeps the two registries one
    "net" event apart. *)
Lemma on_match_tty_after_net tty key name w1 w2 :
  Subsystem tty = "tty" -> EPnum tty = "03" ->
  opened w2 = opened w1 ->
  devices (mgr w2)
  = <[key := with_net name (record_at key w1)]> (devices (mgr w1)) ->
  opened (on_match env tty key w2) = opened (on_match env tty key w1)
  ∧ devices (mgr (on_match env tty key w2))
    = <[key := with_net name (record_at key (on_match env tty key w1))]>
        (devices (mgr (on_match env tty key w1))).
Proof.
  intros Hs He Ho Hd.
  assert (Hr : record_at key w2 = with_net name (record_at key w1)).
  { unfold record_at at 1. now rewrite Hd, lookup_insert_eq. }
  destruct (getImei (env (DevNode tty) (opened w1))) as [imei [err|]] eqn:Hi.
  - rewrite (on_match_tty_failed env tty key w1 imei err Hs He Hi).
    rewrite (on_match_tty_failed env tty key w2 imei err Hs He)
      by (now rewrite Ho).
    rewrite record_at_store, Hr.
    destruct (decide (Action tty = "add")); cbn; rewrite Ho, Hd;
      (split; [reflexivity|]); now rewrite !insert_insert_eq.
  - rewrite (on_match_tty_ok env tty key w1 imei Hs He Hi).
    rewrite (on_match_tty_ok env tty key w2 imei Hs He)
      by (now rewrite Ho).
    rewrite record_at_store, Hr.
    destruct (decide (Action tty = "add")); cbn; rewrite Ho, Hd;
      (split; [reflexivity|]); now rewrite !insert_insert_eq.
Qed.

(** X16. The "tty" event of the command interface and the "net" event of
    the same modem can arrive in either order: the registry is the same
    afterwards, with the network name and the serial data in one record
    under the parent's path (only the record passed to the handler differs,
    the name being known or not yet). *)
Theorem tty_and_net_commute (tty net : Device) (usb : UsbDevice) (w : World) :
  Action tty ≠ "remove" -> Subsystem tty = "tty" -> EPnum tty = "03" ->
  usb_parent tty = Some usb ->
  Action net ≠ "remove" -> Subsystem net = "net" ->
  usb_parent net = Some usb ->
  (1 <= matches usb (filters (mgr w)))%nat ->
  devices (mgr (readDevice env net (readDevice env tty w)))
  = devices (mgr (readDevice env tty (readDevice env net w)))
  ∧ opened (readDevice env net (readDevice env tty w))
    = opened (readDevice env tty (readDevice env net w))
  ∧ Net <$> devices (mgr (readDevice env net (readDevice env tty w)))
            !! usb_DevNode usb
    = Some (SysName net).
Proof.
  intros Hat Hst Het Hpt Han Hsn Hpn Hm.
  set (key := usb_DevNode usb).
  set (n := matches usb (filters (mgr w))) in *.
  assert (Ht : ∀ w0, filters (mgr w0) = filters (mgr w) ->
             readDevice env tty w0 = Nat.iter n (on_match env tty key) w0).
  { intros w0 Hf. rewrite (readDevice_leaf env tty usb) by auto.
    now rewrite Hf. }
  rewrite (Ht w eq_refl).
  rewrite (readDevice_net_once net usb w Han Hsn Hpn Hm). fold key.
  rewrite (Ht (store key (with_net (SysName net) (record_at key w)) w) eq_refl).
  rewrite (readDevice_net_once net usb) by
    (auto; rewrite (proj1 (iter_on_match_filters tty key n w)); exact Hm).
  fold key.
  assert (H : opened (Nat.iter n (on_match env tty key)
                        (store key (with_net (SysName net) (record_at key w)) w))
              = opened (Nat.iter n (on_match env tty key) w)
            ∧ devices (mgr (Nat.iter n (on_match env tty key)
                        (store key (with_net (SysName net) (record_at key w)) w)))
              = <[key := with_net (SysName net)
                           (record_at key (Nat.iter n (on_match env tty key) w))]>
                  (devices (mgr (Nat.iter n (on_match env tty key) w)))).
  { clearbody n. clear Hm Ht. induction n as [|n [IHo IHd]].
    - split; reflexivity.
    - rewrite !Nat.iter_succ.
      now apply on_match_tty_after_net. }
  destruct H as [Ho Hd]. rewrite Hd, Ho. cbn.
  repeat split. now rewrite lookup_insert_eq.
Qed.

(** X17. A "net" event that is no removal, processed a second time, changes
    nothing: the name is stored already. *)
Theorem net_event_twice (dev : Device) (w : World) :
  Action dev ≠ "remove" -> Subsystem dev = "net" ->
  readDevice env dev (readDevice env dev w) = readDevice env dev w.
Proof.
  intros Ha Hs.
  destruct (usb_parent dev) as [usb|] eqn:Hp.
  2:{ assert (E : readDevice env dev w = w).
      { unfold readDevice.
        destruct (decide (Action dev = "remove")); [contradiction|].
        destruct (decide _); [reflexivity|]. now rewrite Hp. }
      now rewrite !E. }
  destruct (matches usb (filters (mgr w))) as [|n] eqn:Hm.
  { assert (E : readDevice env dev w = w).
    { rewrite (readDevice_leaf env dev usb) by auto. now rewrite Hm. }
    now rewrite !E. }
  rewrite (readDevice_net_once dev usb w) by (auto; lia).
  rewrite (readDevice_net_once dev usb) by (auto; cbn; lia).
  rewrite record_at_store, store_again. reflexivity.
Qed.

(** X18. After any event of a "tty" or "net" leaf with a matching parent,
    a "remove" event that carries the parent's device node calls the
    remove handler once, with the record exactly as that event left it,
    and the registry is what it was before the leaf's event, without the
    parent's key. *)
Theorem leaf_then_parent_removed (leaf gone : Device) (usb : UsbDevice)
    (w : World) :
  Action leaf ≠ "remove" ->
  Subsystem leaf = "tty" ∨ Subsystem leaf = "net" ->
  usb_parent leaf = Some usb ->
  (1 <= matches usb (filters (mgr w)))%nat ->
  Action gone = "remove" -> DevNode gone = usb_DevNode usb ->
  let w1 := readDevice env leaf w in
  let w2 := readDevice env gone w1 in
  devices (mgr w2) = delete (usb_DevNode usb) (devices (mgr w))
  ∧ ∃ d, devices (mgr w1) !! usb_DevNode usb = Some d
       ∧ trace w2 = trace w1 ++ [fire remove (handleRemove (mgr w)) d].
Proof.
  intros Ha Hs Hp Hm Hg Hnode w1 w2.
  assert (Hw1 : w1 = Nat.iter (matches usb (filters (mgr w)))
                       (on_match env leaf (usb_DevNode usb)) w)
    by (subst w1; now apply readDevice_leaf).
  assert (Hsome : is_Some (devices (mgr w1) !! usb_DevNode usb)).
  { rewrite Hw1. destruct (matches usb (filters (mgr w))) as [|n]; [lia|].
    rewrite Nat.iter_succ. apply on_match_stores. }
  destruct Hsome as [d Hd].
  assert (Hw2 : w2 = on_mgr (fun m => set_devices
                                (delete (usb_DevNode usb) (devices m)) m)
                       (emit (fire remove (handleRemove (mgr w1)) d) w1)).
  { subst w2. rewrite (readDevice_remove env gone w1 Hg), Hnode, Hd.
    reflexivity. }
  split.
  - rewrite Hw2. cbn. apply map_eq. intros k.
    rewrite !lookup_delete.
    destruct (decide (usb_DevNode usb = k)); [reflexivity|].
    rewrite Hw1. apply iter_on_match_other_keys. congruence.
  - exists d. split; [exact Hd|]. rewrite Hw2. cbn.
    rewrite Hw1 at 2.
    now rewrite (proj2 (iter_on_match_filters leaf _ _ w)).
Qed.

End Composition.

Lemma tty_and_net_commute_witness :
  devices (mgr (readDevice ports_ok (net0 "add")
                  (readDevice ports_ok (tty0 "add") same_filter_twice)))
  = devices (mgr (readDevice ports_ok (tty0 "add")
                    (readDevice ports_ok (net0 "add") same_filter_twice))).
Proof.
  assert (H := tty_and_net_commute ports_ok (tty0 "add") (net0 "add") usb0
                 same_filter_twice).
  destruct H as (H1 & _);
    [ discriminate | reflexivity | reflexivity | reflexivity
    | discriminate | reflexivity | reflexivity | vm_compute; lia | ].
  exact H1.
Defined.

Lemma net_event_twice_witness :
  readDevice ports_ok (net0 "add") (readDevice ports_ok (net0 "add") after_tty)
  = readDevice ports_ok (net0 "add") after_tty.
Proof.
  apply (net_event_twice ports_ok (net0 "add") after_tty);
    [discriminate|reflexivity].
Defined.

Lemma leaf_then_parent_removed_witness :
  devices (mgr (readDevice ports_ok (usb0_event "remove") after_tty))
  = delete "/dev/bus/usb/001/004" (devices (mgr one_filter)).
Proof.
  assert (H := leaf_then_parent_removed ports_ok (tty0 "add")
                 (usb0_event "remove") usb0 one_filter).
  cbv zeta in H.
  destruct H as (H1 & _);
    [ discriminate | left; reflexivity | reflexivity | vm_compute; lia
    | reflexivity | reflexivity | ].
  exact H1.
Defined.

(** ** What List reports *)

Lemma List_lookup (m : Manager) (k : string) :
  List m !! k
  = match devices m !! k with
    | Some d => if decide (ready d = 1) then Some d else None
    | None => None
    end.
Proof.
  apply option_eq. intros d. rewrite List_ready.
  destruct (devices m !! k) as [d'|]; [|split; [intros [? _]|]; discriminate].
  destruct (decide (ready d' = 1)); split.
  - now intros [? _].
  - intros [= <-]. auto.
  - intros [[= <-] ?]. contradiction.
  - discriminate.
Qed.

(** X19. What [List] returns after an event on the tty / endpoint "03"
    branch (one matching filter entry): when the retrieval succeeds the
    modem is listed under the parent's path with the new serial data; when
    it fails the listing of that path is what it was (a modem listed
    before stays listed, with its old identifier). The listing of every
    other path is unchanged in both cases. *)
Theorem List_after_tty03 (env : Serial) (dev : Device) (usb : UsbDevice)
    (w : World) :
  Action dev ≠ "remove" -> Subsystem dev = "tty" -> EPnum dev = "03" ->
  usb_parent dev = Some usb ->
  matches usb (filters (mgr w)) = 1%nat ->
  let key := usb_DevNode usb in
  let w' := readDevice env dev w in
  List (mgr w') !! key
  = match getImei (env (DevNode dev) (opened w)) with
    | (imei, None) =>
        Some (mkModem (Net (record_at key w)) (DevNode dev) imei 1)
    | (_, Some _) => List (mgr w) !! key
    end
  ∧ ∀ k, k ≠ key -> List (mgr w') !! k = List (mgr w) !! k.
Proof.
  intros Ha Hs He Hp Hm key w'.
  assert (Hw' : w' = on_match env dev key w).
  { subst w'. rewrite (readDevice_leaf env dev usb) by auto.
    rewrite Hm. reflexivity. }
  split.
  - rewrite !List_lookup, Hw'.
    destruct (getImei (env (DevNode dev) (opened w))) as [imei [err|]] eqn:Hi.
    + rewrite (on_match_tty_failed env dev key w imei err Hs He Hi).
      cbn. rewrite lookup_insert_eq. unfold record_at.
      destruct (devices (mgr w) !! key) as [d|]; reflexivity.
    + rewrite (on_match_tty_ok env dev key w imei Hs He Hi).
      cbn. rewrite lookup_insert_eq. reflexivity.
  - intros k Hk. rewrite !List_lookup, Hw'.
    destruct (on_match_footprint env dev key w) as (_ & _ & H).
    now rewrite H.
Qed.

Lemma List_after_tty03_witness :
  List (mgr (readDevice ports_ok (tty0 "add") one_filter))
    !! "/dev/bus/usb/001/004" = Some modem0
  ∧ List (mgr (readDevice ports_short (tty0 "change") after_tty))
    !! "/dev/bus/usb/001/004" = Some modem0.
Proof.
  split.
  - assert (H := List_after_tty03 ports_ok (tty0 "add") usb0 one_filter).
    cbv zeta in H.
    destruct H as (H1 & _);
      [discriminate | reflexivity | reflexivity | reflexivity | reflexivity | ].
    exact H1.
  - assert (H := List_after_tty03 ports_short (tty0 "change") usb0 after_tty).
    cbv zeta in H.
    destruct H as (H1 & _);
      [discriminate | reflexivity | reflexivity | reflexivity | reflexivity | ].
    etransitivity; [exact H1|]. vm_compute. reflexivity.
Defined.
